(** * AlgoNim escrow: the approval program of [contracts/escrow.py]

    The contract is a PyTeal program.  Its expressions are embedded as
    computations in a reader/state/failure monad over the AVM data the
    program touches: the fields of the calling transaction and of its
    group, the [Global] fields, the application's global key-value
    store and the inner transactions it submits.  A failed [Assert], an
    out-of-range argument or group index, a comparison of a uint64 with
    a byte string and uint64 overflow or underflow all make the program
    panic; the ledger then keeps the previous store. *)

From Stdlib Require Import ZArith String Ascii List Lia.
From stdpp Require Import base option list strings gmap fin_maps.

Open Scope Z_scope.

(** ** AVM values and transaction fields *)

Inductive TealValue :=
| Uint (n : Z)
| Bytes (b : string).

#[global] Instance TealValue_eq_dec : EqDecision TealValue.
Proof. solve_decision. Defined.

(** [TxnType] as PyTeal numbers it. *)
Inductive TxnType :=
| Unknown | Payment | KeyRegistration | AssetConfig
| AssetTransfer | AssetFreeze | ApplicationCall.

Definition TxnType_value (t : TxnType) : Z :=
  match t with
  | Unknown => 0 | Payment => 1 | KeyRegistration => 2 | AssetConfig => 3
  | AssetTransfer => 4 | AssetFreeze => 5 | ApplicationCall => 6
  end.

Inductive OnComplete :=
| NoOp | OptIn | CloseOut | ClearState | UpdateApplication | DeleteApplication.

Definition OnComplete_value (o : OnComplete) : Z :=
  match o with
  | NoOp => 0 | OptIn => 1 | CloseOut => 2 | ClearState => 3
  | UpdateApplication => 4 | DeleteApplication => 5
  end.

#[global] Instance OnComplete_eq_dec : EqDecision OnComplete.
Proof. solve_decision. Defined.

(** A transaction of the group, as far as [Gtxn[i]] is read. *)
Record GroupTxn := {
  gtxn_type_enum : TxnType;
  gtxn_sender : string;
  gtxn_receiver : string;
  gtxn_amount : Z
}.

(** What one application call sees: [Txn], [Gtxn] and [Global]. *)
Record Env := {
  sender : string;
  application_id : Z;
  on_completion : OnComplete;
  application_args : list string;
  group : list GroupTxn;
  latest_timestamp : Z;
  creator_address : string;
  current_application_address : string
}.

(** An inner transaction under construction or submitted. *)
Record InnerTxn := {
  itxn_type_enum : TxnType;
  itxn_receiver : string;
  itxn_amount : Z;
  itxn_fee : Z
}.

#[global] Instance TxnType_eq_dec : EqDecision TxnType.
Proof. solve_decision. Defined.

#[global] Instance InnerTxn_eq_dec : EqDecision InnerTxn.
Proof. solve_decision. Defined.

(** The mutable part: global store, the inner transaction being built
    and the inner transactions submitted so far (oldest first). *)
Record Machine := {
  globals : gmap string TealValue;
  pending : option InnerTxn;
  submitted : list InnerTxn
}.

(** ** The evaluation monad *)

Definition M (A : Type) : Type := Env → Machine → option (A * Machine).

Definition ret {A} (a : A) : M A := λ _ m, Some (a, m).

Definition bind {A B} (x : M A) (k : A → M B) : M B :=
  λ e m, match x e m with
         | Some (a, m') => k a e m'
         | None => None
         end.

Definition panic {A} : M A := λ _ _, None.

Definition ask : M Env := λ e m, Some (e, m).
Definition get : M Machine := λ _ m, Some (m, m).
Definition put (m : Machine) : M unit := λ _ _, Some (tt, m).

#[global] Instance M_ret : MRet M := @ret.
#[global] Instance M_bind : MBind M := λ A B k x, bind x k.

Definition Expr := M TealValue.

Definition uint64_max : Z := 2 ^ 64 - 1.

Definition as_uint (v : TealValue) : M Z :=
  match v with Uint n => ret n | Bytes _ => panic end.

Definition as_bytes (v : TealValue) : M string :=
  match v with Bytes b => ret b | Uint _ => panic end.

Definition of_bool (b : bool) : TealValue := Uint (if b then 1 else 0).

(** ** PyTeal expressions *)

Definition Int (n : Z) : Expr := ret (Uint n).
Definition BytesLit (s : string) : Expr := ret (Bytes s).

Definition Txn_sender : Expr := e ← ask; ret (Bytes (sender e)).
Definition Txn_application_id : Expr := e ← ask; ret (Uint (application_id e)).
Definition Txn_on_completion : Expr :=
  e ← ask; ret (Uint (OnComplete_value (on_completion e))).

(** [Txn.application_args[i]]: panics when there is no such argument. *)
Definition Txn_application_args (i : nat) : Expr :=
  e ← ask;
  match application_args e !! i with
  | Some a => ret (Bytes a)
  | None => panic
  end.

(** [Gtxn[i]]: panics when the group has no transaction [i]. *)
Definition Gtxn (i : nat) : M GroupTxn :=
  e ← ask;
  match group e !! i with
  | Some t => ret t
  | None => panic
  end.

Definition Gtxn_type_enum (i : nat) : Expr :=
  t ← Gtxn i; ret (Uint (TxnType_value (gtxn_type_enum t))).
Definition Gtxn_receiver (i : nat) : Expr :=
  t ← Gtxn i; ret (Bytes (gtxn_receiver t)).
Definition Gtxn_amount (i : nat) : Expr :=
  t ← Gtxn i; ret (Uint (gtxn_amount t)).

Definition TxnType_Payment : Expr := Int (TxnType_value Payment).
Definition OnComplete_DeleteApplication : Expr :=
  Int (OnComplete_value DeleteApplication).
Definition OnComplete_UpdateApplication : Expr :=
  Int (OnComplete_value UpdateApplication).
Definition OnComplete_CloseOut : Expr := Int (OnComplete_value CloseOut).
Definition OnComplete_OptIn : Expr := Int (OnComplete_value OptIn).

Fixpoint zero_bytes (n : nat) : string :=
  match n with
  | O => EmptyString
  | S n' => String zero (zero_bytes n')
  end.

(** The zero address: 32 zero bytes. *)
Definition zero_address : string := Eval cbv in zero_bytes 32.

Definition Global_zero_address : Expr := ret (Bytes zero_address).
Definition Global_creator_address : Expr :=
  e ← ask; ret (Bytes (creator_address e)).
Definition Global_latest_timestamp : Expr :=
  e ← ask; ret (Uint (latest_timestamp e)).
Definition Global_current_application_address : Expr :=
  e ← ask; ret (Bytes (current_application_address e)).

(** [App.globalGet]: a key that was never written reads as uint64 0. *)
Definition App_globalGet (key : string) : Expr :=
  m ← get; ret (default (Uint 0) (globals m !! key)).

(** [App.globalPut].  The ledger refuses a key and value of more than
    128 bytes together; that bound is not part of this definition.  The
    program stores one value of unbounded length, the game id of the
    creating call, and the statements that a creating call is approved
    assume that it fits. *)
Definition App_globalPut (key : string) (value : Expr) : M unit :=
  v ← value;
  m ← get;
  put {| globals := <[key := v]> (globals m);
         pending := pending m;
         submitted := submitted m |}.

(** [Btoi]: big-endian bytes to uint64; panics on more than 8 bytes. *)
Fixpoint btoi_acc (acc : Z) (s : string) : Z :=
  match s with
  | EmptyString => acc
  | String c s' => btoi_acc (acc * 256 + Z.of_N (N_of_ascii c)) s'
  end.

Definition btoi (s : string) : option Z :=
  if decide (String.length s ≤ 8)%nat then Some (btoi_acc 0 s) else None.

Definition Btoi (x : Expr) : Expr :=
  v ← x; b ← as_bytes v;
  match btoi b with
  | Some n => ret (Uint n)
  | None => panic
  end.

(** [==] and [!=] panic on operands of different types. *)
Definition Eq (x y : Expr) : Expr :=
  a ← x; b ← y;
  match a, b with
  | Uint n, Uint k => ret (of_bool (bool_decide (n = k)))
  | Bytes s, Bytes t => ret (of_bool (bool_decide (s = t)))
  | _, _ => panic
  end.

Definition Neq (x y : Expr) : Expr :=
  a ← x; b ← y;
  match a, b with
  | Uint n, Uint k => ret (of_bool (bool_decide (n ≠ k)))
  | Bytes s, Bytes t => ret (of_bool (bool_decide (s ≠ t)))
  | _, _ => panic
  end.

Definition Gt (x y : Expr) : Expr :=
  a ← x; b ← y; n ← as_uint a; k ← as_uint b;
  ret (of_bool (bool_decide (n > k))).

(** uint64 arithmetic: overflow and underflow panic. *)
Definition Add (x y : Expr) : Expr :=
  a ← x; b ← y; n ← as_uint a; k ← as_uint b;
  if decide (n + k ≤ uint64_max) then ret (Uint (n + k)) else panic.

Definition Mul (x y : Expr) : Expr :=
  a ← x; b ← y; n ← as_uint a; k ← as_uint b;
  if decide (n * k ≤ uint64_max) then ret (Uint (n * k)) else panic.

Definition Minus (x y : Expr) : Expr :=
  a ← x; b ← y; n ← as_uint a; k ← as_uint b;
  if decide (k ≤ n) then ret (Uint (n - k)) else panic.

(** [Or] evaluates both operands. *)
Definition Or (x y : Expr) : Expr :=
  a ← x; b ← y; n ← as_uint a; k ← as_uint b;
  ret (of_bool (bool_decide (n ≠ 0 ∨ k ≠ 0))).

(** ** PyTeal statements *)

Definition Assert (cond : Expr) : M unit :=
  v ← cond; n ← as_uint v;
  if decide (n ≠ 0) then ret tt else panic.

(** [Return] closes every branch of the program: its value is the
    program's result. *)
Definition Return (value : Expr) : M TealValue := value.

(** [Cond]: the first branch whose condition holds; panics if none does. *)
Fixpoint Cond (branches : list (Expr * M TealValue)) : M TealValue :=
  match branches with
  | [] => panic
  | (c, body) :: rest =>
      v ← c; n ← as_uint v;
      if decide (n ≠ 0) then body else Cond rest
  end.

Definition InnerTxnBuilder_Begin : M unit :=
  m ← get;
  put {| globals := globals m;
         pending := Some {| itxn_type_enum := Unknown;
                            itxn_receiver := zero_address;
                            itxn_amount := 0;
                            itxn_fee := 0 |};
         submitted := submitted m |}.

(** [SetFields] with the four fields the program sets, in its order. *)
Definition InnerTxnBuilder_SetFields
    (type_enum : TxnType) (receiver amount fee : Expr) : M unit :=
  r ← receiver; rb ← as_bytes r;
  a ← amount; an ← as_uint a;
  f ← fee; fn ← as_uint f;
  m ← get;
  match pending m with
  | None => panic
  | Some _ =>
      put {| globals := globals m;
             pending := Some {| itxn_type_enum := type_enum;
                                itxn_receiver := rb;
                                itxn_amount := an;
                                itxn_fee := fn |};
             submitted := submitted m |}
  end.

(** [Submit] records the inner transaction as carried out.  The ledger
    refuses it when the application account cannot pay the amount and
    keep its minimum balance, or when its fee is not covered; the
    account's balance is not part of this model, so a payout the
    program approves is approved here. *)
Definition InnerTxnBuilder_Submit : M unit :=
  m ← get;
  match pending m with
  | None => panic
  | Some t =>
      put {| globals := globals m;
             pending := None;
             submitted := submitted m ++ [t] |}
  end.

(** ** The approval program *)

Section Escrow.

(** [GAME_SERVER]: the source holds a placeholder to be replaced by the
    address of the game server before deployment. *)
Variable GAME_SERVER_address : string.

(** Global state keys *)
Definition player1_key : string := "player1".
Definition player2_key : string := "player2".
Definition wager_key : string := "wager".
Definition game_id_key : string := "game_id".
Definition winner_key : string := "winner".
Definition status_key : string := "status".
Definition created_at_key : string := "created_at".
Definition last_move_key : string := "last_move".

(** Status values *)
Definition STATUS_WAITING : Expr := Int 0.
Definition STATUS_ACTIVE : Expr := Int 1.
Definition STATUS_COMPLETE : Expr := Int 2.

(** Timeout values (in seconds) *)
Definition JOIN_TIMEOUT : Expr := Int 3600.
Definition ABANDON_TIMEOUT : Expr := Int 259200.

Definition GAME_SERVER : Expr := BytesLit GAME_SERVER_address.

Definition is_creator : Expr := Eq Txn_sender Global_creator_address.

Definition on_create : M TealValue :=
  App_globalPut player1_key Txn_sender;;
  App_globalPut player2_key Global_zero_address;;
  App_globalPut wager_key (Btoi (Txn_application_args 0));;
  App_globalPut game_id_key (Txn_application_args 1);;
  App_globalPut winner_key Global_zero_address;;
  App_globalPut status_key STATUS_WAITING;;
  App_globalPut created_at_key Global_latest_timestamp;;
  App_globalPut last_move_key Global_latest_timestamp;;
  Return (Int 1).

Definition on_join : M TealValue :=
  Assert (Eq (App_globalGet status_key) STATUS_WAITING);;
  Assert (Neq Txn_sender (App_globalGet player1_key));;
  Assert (Eq (App_globalGet player2_key) Global_zero_address);;
  Assert (Eq (Gtxn_type_enum 1) TxnType_Payment);;
  Assert (Eq (Gtxn_receiver 1) Global_current_application_address);;
  Assert (Eq (Gtxn_amount 1) (App_globalGet wager_key));;
  App_globalPut player2_key Txn_sender;;
  App_globalPut status_key STATUS_ACTIVE;;
  App_globalPut last_move_key Global_latest_timestamp;;
  Return (Int 1).

Definition on_deposit : M TealValue :=
  Assert (Eq Txn_sender (App_globalGet player1_key));;
  Assert (Eq (Gtxn_type_enum 1) TxnType_Payment);;
  Assert (Eq (Gtxn_receiver 1) Global_current_application_address);;
  Assert (Eq (Gtxn_amount 1) (App_globalGet wager_key));;
  Return (Int 1).

Definition on_declare_winner : M TealValue :=
  Assert (Or (Eq Txn_sender GAME_SERVER)
             (Eq Txn_sender Global_creator_address));;
  Assert (Eq (App_globalGet status_key) STATUS_ACTIVE);;
  Assert (Or (Eq (Txn_application_args 1) (App_globalGet player1_key))
             (Eq (Txn_application_args 1) (App_globalGet player2_key)));;
  App_globalPut winner_key (Txn_application_args 1);;
  App_globalPut status_key STATUS_COMPLETE;;
  Return (Int 1).

Definition on_claim : M TealValue :=
  Assert (Eq (App_globalGet status_key) STATUS_COMPLETE);;
  Assert (Eq Txn_sender (App_globalGet winner_key));;
  InnerTxnBuilder_Begin;;
  InnerTxnBuilder_SetFields
    Payment
    Txn_sender
    (Minus (Mul (App_globalGet wager_key) (Int 2)) (Int 1000))
    (Int 0);;
  InnerTxnBuilder_Submit;;
  Return (Int 1).

Definition on_cancel : M TealValue :=
  Assert (Eq Txn_sender (App_globalGet player1_key));;
  Assert (Eq (App_globalGet status_key) STATUS_WAITING);;
  Assert (Gt Global_latest_timestamp
             (Add (App_globalGet created_at_key) JOIN_TIMEOUT));;
  InnerTxnBuilder_Begin;;
  InnerTxnBuilder_SetFields
    Payment
    (App_globalGet player1_key)
    (Minus (App_globalGet wager_key) (Int 1000))
    (Int 0);;
  InnerTxnBuilder_Submit;;
  Return (Int 1).

Definition on_timeout_claim : M TealValue :=
  Assert (Eq (App_globalGet status_key) STATUS_ACTIVE);;
  Assert (Or (Eq Txn_sender (App_globalGet player1_key))
             (Eq Txn_sender (App_globalGet player2_key)));;
  Assert (Gt Global_latest_timestamp
             (Add (App_globalGet last_move_key) ABANDON_TIMEOUT));;
  App_globalPut winner_key Txn_sender;;
  App_globalPut status_key STATUS_COMPLETE;;
  InnerTxnBuilder_Begin;;
  InnerTxnBuilder_SetFields
    Payment
    Txn_sender
    (Minus (Mul (App_globalGet wager_key) (Int 2)) (Int 1000))
    (Int 0);;
  InnerTxnBuilder_Submit;;
  Return (Int 1).

Definition on_update_move : M TealValue :=
  Assert (Or (Eq Txn_sender GAME_SERVER)
             (Eq Txn_sender Global_creator_address));;
  Assert (Eq (App_globalGet status_key) STATUS_ACTIVE);;
  App_globalPut last_move_key Global_latest_timestamp;;
  Return (Int 1).

(** Route based on application call *)
Definition approval_program : M TealValue :=
  Cond [
    (Eq Txn_application_id (Int 0), on_create);
    (Eq Txn_on_completion OnComplete_DeleteApplication, Return is_creator);
    (Eq Txn_on_completion OnComplete_UpdateApplication, Return is_creator);
    (Eq Txn_on_completion OnComplete_CloseOut, Return (Int 1));
    (Eq Txn_on_completion OnComplete_OptIn, Return (Int 1));
    (Eq (Txn_application_args 0) (BytesLit "join"), on_join);
    (Eq (Txn_application_args 0) (BytesLit "deposit"), on_deposit);
    (Eq (Txn_application_args 0) (BytesLit "declare_winner"), on_declare_winner);
    (Eq (Txn_application_args 0) (BytesLit "claim"), on_claim);
    (Eq (Txn_application_args 0) (BytesLit "cancel"), on_cancel);
    (Eq (Txn_application_args 0) (BytesLit "timeout_claim"), on_timeout_claim);
    (Eq (Txn_application_args 0) (BytesLit "update_move"), on_update_move)
  ].

Definition clear_state_program : M TealValue := Return (Int 1).

(** ** One application call on the ledger *)

(** The result of a call: whether it was approved, the global store
    the ledger holds afterwards and the inner transactions carried
    out. *)
Record Outcome := {
  approved : bool;
  committed : gmap string TealValue;
  transfers : list InnerTxn
}.

Definition rejected (g : gmap string TealValue) : Outcome :=
  {| approved := false; committed := g; transfers := [] |}.

Definition accepted (g : gmap string TealValue) (ts : list InnerTxn)
    : Outcome :=
  {| approved := true; committed := g; transfers := ts |}.

(** The machine a call starts from: a scratch copy of the store and no
    inner transaction. *)
Definition start (g : gmap string TealValue) : Machine :=
  {| globals := g; pending := None; submitted := [] |}.

(** The ledger takes the scratch copy and the inner transactions only
    when the program ends with a non-zero uint64; on a panic or a zero
    it keeps the store [g] it had. *)
Definition settle (g : gmap string TealValue)
    (res : option (TealValue * Machine)) : Outcome :=
  match res with
  | Some (Uint n, m) =>
      if decide (n ≠ 0) then accepted (globals m) (submitted m)
      else rejected g
  | _ => rejected g
  end.

(** A [ClearState] call runs the clear program, every other call the
    approval program. *)
Definition execute (e : Env) (g : gmap string TealValue) : Outcome :=
  let program :=
    if decide (on_completion e = ClearState)
    then clear_state_program else approval_program in
  settle g (program e (start g)).

(** ** The game record and its layout in the store *)

Record GameRecord := {
  player1 : string;
  player2 : string;
  wager : Z;
  game_id : string;
  winner : string;
  status : Z;
  created_at : Z;
  last_move : Z
}.

Definition store (r : GameRecord) : gmap string TealValue :=
  <[last_move_key := Uint (last_move r)]>
  (<[created_at_key := Uint (created_at r)]>
  (<[status_key := Uint (status r)]>
  (<[winner_key := Bytes (winner r)]>
  (<[game_id_key := Bytes (game_id r)]>
  (<[wager_key := Uint (wager r)]>
  (<[player2_key := Bytes (player2 r)]>
  (<[player1_key := Bytes (player1 r)]> ∅))))))).

(** ** What each branch checks and does, read off the record

    These summaries are proved to agree with the program above
    ([run_on_join] and the like, [execute_method], [execute_call]);
    the program is the definition. *)

(** The call reaches the branch of [Cond] for the method [op]. *)
Definition routes (op : string) (e : Env) : Prop :=
  application_id e ≠ 0 ∧ on_completion e = NoOp
  ∧ application_args e !! 0%nat = Some op.

(** [Gtxn[1]] is a payment of [amount] to the application address. *)
Definition paired_payment (e : Env) (amount : Z) : bool :=
  match group e !! 1%nat with
  | Some t =>
      bool_decide (gtxn_type_enum t = Payment)
      && bool_decide (gtxn_receiver t = current_application_address e)
      && bool_decide (gtxn_amount t = amount)
  | None => false
  end.

(** Sender is the game server or the application's creator. *)
Definition server_or_creator (e : Env) : bool :=
  bool_decide (sender e = GAME_SERVER_address)
  || bool_decide (sender e = creator_address e).

(** [wager * 2 - 1000] is computed without overflow or underflow. *)
Definition pot_computable (w : Z) : bool :=
  bool_decide (w * 2 ≤ uint64_max) && bool_decide (1000 ≤ w * 2).

Definition payment (receiver : string) (amount : Z) : InnerTxn :=
  {| itxn_type_enum := Payment; itxn_receiver := receiver;
     itxn_amount := amount; itxn_fee := 0 |}.

Definition create_post (e : Env) (w : Z) (gid : string) : GameRecord :=
  {| player1 := sender e; player2 := zero_address; wager := w;
     game_id := gid; winner := zero_address; status := 0;
     created_at := latest_timestamp e; last_move := latest_timestamp e |}.

Definition join_pre (e : Env) (r : GameRecord) : bool :=
  bool_decide (status r = 0)
  && bool_decide (sender e ≠ player1 r)
  && bool_decide (player2 r = zero_address)
  && paired_payment e (wager r).

Definition join_post (e : Env) (r : GameRecord) : GameRecord :=
  {| player1 := player1 r; player2 := sender e; wager := wager r;
     game_id := game_id r; winner := winner r; status := 1;
     created_at := created_at r; last_move := latest_timestamp e |}.

Definition deposit_pre (e : Env) (r : GameRecord) : bool :=
  bool_decide (sender e = player1 r) && paired_payment e (wager r).

Definition declare_winner_pre (e : Env) (r : GameRecord) : bool :=
  server_or_creator e
  && bool_decide (status r = 1)
  && match application_args e !! 1%nat with
     | Some p => bool_decide (p = player1 r) || bool_decide (p = player2 r)
     | None => false
     end.

Definition declare_winner_post (p : string) (r : GameRecord) : GameRecord :=
  {| player1 := player1 r; player2 := player2 r; wager := wager r;
     game_id := game_id r; winner := p; status := 2;
     created_at := created_at r; last_move := last_move r |}.

Definition claim_pre (e : Env) (r : GameRecord) : bool :=
  bool_decide (status r = 2)
  && bool_decide (sender e = winner r)
  && pot_computable (wager r).

Definition cancel_pre (e : Env) (r : GameRecord) : bool :=
  bool_decide (sender e = player1 r)
  && bool_decide (status r = 0)
  && bool_decide (created_at r + 3600 ≤ uint64_max)
  && bool_decide (latest_timestamp e > created_at r + 3600)
  && bool_decide (1000 ≤ wager r).

Definition timeout_claim_pre (e : Env) (r : GameRecord) : bool :=
  bool_decide (status r = 1)
  && (bool_decide (sender e = player1 r) || bool_decide (sender e = player2 r))
  && bool_decide (last_move r + 259200 ≤ uint64_max)
  && bool_decide (latest_timestamp e > last_move r + 259200)
  && pot_computable (wager r).

Definition timeout_claim_post (e : Env) (r : GameRecord) : GameRecord :=
  {| player1 := player1 r; player2 := player2 r; wager := wager r;
     game_id := game_id r; winner := sender e; status := 2;
     created_at := created_at r; last_move := last_move r |}.

Definition update_move_pre (e : Env) (r : GameRecord) : bool :=
  server_or_creator e && bool_decide (status r = 1).

Definition update_move_post (e : Env) (r : GameRecord) : GameRecord :=
  {| player1 := player1 r; player2 := player2 r; wager := wager r;
     game_id := game_id r; winner := winner r; status := status r;
     created_at := created_at r; last_move := latest_timestamp e |}.

(** The conjunction of the checks of the branch a method name selects;
    a name with no branch has none that can pass. *)
Definition precondition (op : string) (e : Env) (r : GameRecord) : bool :=
  if decide (op = "join") then join_pre e r
  else if decide (op = "deposit") then deposit_pre e r
  else if decide (op = "declare_winner") then declare_winner_pre e r
  else if decide (op = "claim") then claim_pre e r
  else if decide (op = "cancel") then cancel_pre e r
  else if decide (op = "timeout_claim") then timeout_claim_pre e r
  else if decide (op = "update_move") then update_move_pre e r
  else false.

(** The outcome of a call that reaches the branch of the method [op]. *)
Definition method_outcome (op : string) (e : Env) (r : GameRecord) : Outcome :=
  if decide (op = "join") then
    if join_pre e r then accepted (store (join_post e r)) []
    else rejected (store r)
  else if decide (op = "deposit") then
    if deposit_pre e r then accepted (store r) [] else rejected (store r)
  else if decide (op = "declare_winner") then
    if declare_winner_pre e r
    then accepted
           (store (declare_winner_post
                     (default "" (application_args e !! 1%nat)) r)) []
    else rejected (store r)
  else if decide (op = "claim") then
    if claim_pre e r
    then accepted (store r) [payment (sender e) (wager r * 2 - 1000)]
    else rejected (store r)
  else if decide (op = "cancel") then
    if cancel_pre e r
    then accepted (store r) [payment (player1 r) (wager r - 1000)]
    else rejected (store r)
  else if decide (op = "timeout_claim") then
    if timeout_claim_pre e r
    then accepted (store (timeout_claim_post e r))
           [payment (sender e) (wager r * 2 - 1000)]
    else rejected (store r)
  else if decide (op = "update_move") then
    if update_move_pre e r
    then accepted (store (update_move_post e r)) []
    else rejected (store r)
  else rejected (store r).

(** The outcome of any call to an existing application. *)
Definition call_outcome (e : Env) (r : GameRecord) : Outcome :=
  match on_completion e with
  | ClearState | CloseOut | OptIn => accepted (store r) []
  | DeleteApplication | UpdateApplication =>
      if bool_decide (sender e = creator_address e)
      then accepted (store r) [] else rejected (store r)
  | NoOp =>
      match application_args e !! 0%nat with
      | Some op => method_outcome op e r
      | None => rejected (store r)
      end
  end.

(** ** Sequences of calls *)

(** The calls are applied in order; a rejected call leaves the store as
    it was.  The result is the final store and every inner transaction
    carried out, oldest first. *)
Fixpoint run (calls : list Env) (g : gmap string TealValue)
    : gmap string TealValue * list InnerTxn :=
  match calls with
  | [] => (g, [])
  | e :: rest =>
      let o := execute e g in
      let '(g', ts) := run rest (committed o) in
      (g', transfers o ++ ts)
  end.

(** Every call of the sequence is approved. *)
Fixpoint all_approved (calls : list Env) (g : gmap string TealValue) : bool :=
  match calls with
  | [] => true
  | e :: rest =>
      approved (execute e g) && all_approved rest (committed (execute e g))
  end.

(** The stores an application can hold: it is created by a call with
    application id 0 on the empty store, whose sender is its creator,
    and every later call names the existing application. *)
Inductive reachable (creator app : string) : gmap string TealValue → Prop :=
| reachable_create e :
    application_id e = 0 →
    on_completion e ≠ ClearState →
    sender e = creator →
    creator_address e = creator →
    current_application_address e = app →
    approved (execute e ∅) = true →
    reachable creator app (committed (execute e ∅))
| reachable_call e g :
    reachable creator app g →
    application_id e ≠ 0 →
    creator_address e = creator →
    current_application_address e = app →
    approved (execute e g) = true →
    reachable creator app (committed (execute e g)).

(** The record [r] with its status replaced. *)
Definition with_status (s : Z) (r : GameRecord) : GameRecord :=
  {| player1 := player1 r; player2 := player2 r; wager := wager r;
     game_id := game_id r; winner := winner r; status := s;
     created_at := created_at r; last_move := last_move r |}.

(** The status a store holds. *)
Definition status_of (g : gmap string TealValue) : option TealValue :=
  g !! status_key.

(** The call [e] with another transaction group. *)
Definition with_group (grp : list GroupTxn) (e : Env) : Env :=
  {| sender := sender e; application_id := application_id e;
     on_completion := on_completion e;
     application_args := application_args e; group := grp;
     latest_timestamp := latest_timestamp e;
     creator_address := creator_address e;
     current_application_address := current_application_address e |}.

(** What holds of the record of an application created by [creator]:
    player1 is the creator, the wager is a uint64, and player2 and
    winner are set as far as the status says. *)
Definition record_invariant (creator : string) (r : GameRecord) : Prop :=
  player1 r = creator
  ∧ 0 ≤ wager r ≤ uint64_max
  ∧ ((status r = 0 ∧ player2 r = zero_address ∧ winner r = zero_address)
     ∨ (status r = 1 ∧ player2 r ≠ player1 r ∧ winner r = zero_address)
     ∨ (status r = 2 ∧ player2 r ≠ player1 r
        ∧ (winner r = player1 r ∨ winner r = player2 r))).

(** The ways a call to the existing application changes the record:
    not at all, or by the writes of one of the four writing branches. *)
Definition transition (e : Env) (r r' : GameRecord) : Prop :=
  r' = r
  ∨ (routes "join" e ∧ join_pre e r = true ∧ r' = join_post e r)
  ∨ (routes "declare_winner" e ∧ declare_winner_pre e r = true
     ∧ ∃ p, application_args e !! 1%nat = Some p
            ∧ r' = declare_winner_post p r)
  ∨ (routes "timeout_claim" e ∧ timeout_claim_pre e r = true
     ∧ r' = timeout_claim_post e r)
  ∨ (routes "update_move" e ∧ update_move_pre e r = true
     ∧ r' = update_move_post e r).

End Escrow.

(** ** Concrete calls *)

(** [Itob]: a uint64 as 8 big-endian bytes, the form in which a client
    passes the wager to the creating call. *)
Fixpoint itob_acc (k : nat) (n : Z) (acc : string) : string :=
  match k with
  | O => acc
  | S k' =>
      itob_acc k' (n / 256) (String (ascii_of_N (Z.to_N (n mod 256))) acc)
  end.

Definition itob (n : Z) : string := itob_acc 8 n EmptyString.

Module Scenario.

Definition ALICE : string := "AAAAAAAAAAAAAAAAAAAAAAAAAAAAAAAA".
Definition BOB : string := "BBBBBBBBBBBBBBBBBBBBBBBBBBBBBBBB".
Definition SERVER : string := "SSSSSSSSSSSSSSSSSSSSSSSSSSSSSSSS".
Definition ESCROW : string := "EEEEEEEEEEEEEEEEEEEEEEEEEEEEEEEE".

(** The application call itself, first of its group. *)
Definition appcall (who : string) : GroupTxn :=
  {| gtxn_type_enum := ApplicationCall; gtxn_sender := who;
     gtxn_receiver := zero_address; gtxn_amount := 0 |}.

(** A payment to the escrow, second of the group. *)
Definition pay (who : string) (amount : Z) : GroupTxn :=
  {| gtxn_type_enum := Payment; gtxn_sender := who;
     gtxn_receiver := ESCROW; gtxn_amount := amount |}.

(** ALICE creates the game [g1] with wager [w] at time [now]. *)
Definition create (w now : Z) : Env :=
  {| sender := ALICE; application_id := 0; on_completion := NoOp;
     application_args := [itob w; "g1"%string]; group := [appcall ALICE];
     latest_timestamp := now; creator_address := ALICE;
     current_application_address := ESCROW |}.

(** [who] calls the created application at time [now], with a paired
    payment of [paid] when there is one. *)
Definition call (who : string) (args : list string) (paid : option Z)
    (now : Z) : Env :=
  {| sender := who; application_id := 1001; on_completion := NoOp;
     application_args := args;
     group := appcall who :: match paid with
                             | Some a => [pay who a]
                             | None => []
                             end;
     latest_timestamp := now; creator_address := ALICE;
     current_application_address := ESCROW |}.

(** The record after [create w 0], after BOB joined at time 10 and
    after ALICE was declared winner. *)
Definition waiting (w : Z) : GameRecord :=
  {| player1 := ALICE; player2 := zero_address; wager := w;
     game_id := "g1"; winner := zero_address; status := 0;
     created_at := 0; last_move := 0 |}.

Definition active (w : Z) : GameRecord :=
  {| player1 := ALICE; player2 := BOB; wager := w;
     game_id := "g1"; winner := zero_address; status := 1;
     created_at := 0; last_move := 10 |}.

Definition complete (w : Z) : GameRecord :=
  {| player1 := ALICE; player2 := BOB; wager := w;
     game_id := "g1"; winner := ALICE; status := 2;
     created_at := 0; last_move := 10 |}.

(** The calls of the scenarios. *)
Definition join_by_bob (paid now : Z) : Env :=
  call BOB ["join"%string] (Some paid) now.
Definition deposit_by_alice (paid now : Z) : Env :=
  call ALICE ["deposit"%string] (Some paid) now.
Definition declare_alice (now : Z) : Env :=
  call SERVER ["declare_winner"%string; ALICE] None now.
Definition claim_by (who : string) (now : Z) : Env :=
  call who ["claim"%string] None now.
Definition cancel_by_alice (now : Z) : Env :=
  call ALICE ["cancel"%string] None now.
Definition timeout_claim_by (who : string) (now : Z) : Env :=
  call who ["timeout_claim"%string] None now.
Definition update_move_by_server (now : Z) : Env :=
  call SERVER ["update_move"%string] None now.

End Scenario.

(** ** Calls of a game between any two accounts *)

Module Play.

Section Accounts.

(** The creator of the game, the application address and the game id. *)
Variables (creator escrow gid : string).

(** The group of a call by [who]: the call itself, then the payment
    to the escrow when there is one. *)
Definition group_of (who : string) (paid : option Z) : list GroupTxn :=
  {| gtxn_type_enum := ApplicationCall; gtxn_sender := who;
     gtxn_receiver := zero_address; gtxn_amount := 0 |}
  :: match paid with
     | Some a => [ {| gtxn_type_enum := Payment; gtxn_sender := who;
                      gtxn_receiver := escrow; gtxn_amount := a |} ]
     | None => []
     end.

(** The creating call, with wager [w]. *)
Definition creation (w now : Z) : Env :=
  {| sender := creator; application_id := 0; on_completion := NoOp;
     application_args := [itob w; gid]; group := group_of creator None;
     latest_timestamp := now; creator_address := creator;
     current_application_address := escrow |}.

(** A NoOp call by [who] to the created application. *)
Definition method (who : string) (args : list string) (paid : option Z)
    (now : Z) : Env :=
  {| sender := who; application_id := 1; on_completion := NoOp;
     application_args := args; group := group_of who paid;
     latest_timestamp := now; creator_address := creator;
     current_application_address := escrow |}.

(** A call by [who] with no argument and the given [OnComplete]. *)
Definition bare (oc : OnComplete) (who : string) (now : Z) : Env :=
  {| sender := who; application_id := 1; on_completion := oc;
     application_args := []; group := group_of who None;
     latest_timestamp := now; creator_address := creator;
     current_application_address := escrow |}.

(** The record of the game: its second player, winner, status and the
    time of its last move; it was created at time [t0] with wager [w]. *)
Definition game (w t0 : Z) (p2 win : string) (st moved : Z) : GameRecord :=
  {| player1 := creator; player2 := p2; wager := w; game_id := gid;
     winner := win; status := st; created_at := t0; last_move := moved |}.

End Accounts.

End Play.

(** * Evaluation lemmas for the PyTeal primitives *)

Create HintDb teal discriminated.
#[export] Hint Constants Opaque : teal.

Section Evaluation.

Context (e : Env) (m : Machine).

Lemma bind_Some {A B} (x : M A) (k : A → M B) a m' :
  x e m = Some (a, m') → (x ≫= k) e m = k a e m'.
Proof. intros H. unfold mbind, M_bind, bind. by rewrite H. Qed.

Lemma bind_None {A B} (x : M A) (k : A → M B) :
  x e m = None → (x ≫= k) e m = None.
Proof. intros H. unfold mbind, M_bind, bind. by rewrite H. Qed.

Lemma eval_Int n : Int n e m = Some (Uint n, m).
Proof. done. Qed.

Lemma eval_BytesLit s : BytesLit s e m = Some (Bytes s, m).
Proof. done. Qed.

Lemma eval_Txn_sender : Txn_sender e m = Some (Bytes (sender e), m).
Proof. done. Qed.

Lemma eval_Txn_application_id :
  Txn_application_id e m = Some (Uint (application_id e), m).
Proof. done. Qed.

Lemma eval_Txn_on_completion :
  Txn_on_completion e m = Some (Uint (OnComplete_value (on_completion e)), m).
Proof. done. Qed.

Lemma eval_Txn_application_args i a :
  application_args e !! i = Some a →
  Txn_application_args i e m = Some (Bytes a, m).
Proof.
  intros H. unfold Txn_application_args, mbind, M_bind, bind, ask.
  by rewrite H.
Qed.

Lemma fail_Txn_application_args i :
  application_args e !! i = None → Txn_application_args i e m = None.
Proof.
  intros H. unfold Txn_application_args, mbind, M_bind, bind, ask.
  by rewrite H.
Qed.

Lemma eval_Gtxn i t : group e !! i = Some t → Gtxn i e m = Some (t, m).
Proof. intros H. unfold Gtxn, mbind, M_bind, bind, ask. by rewrite H. Qed.

Lemma fail_Gtxn i : group e !! i = None → Gtxn i e m = None.
Proof. intros H. unfold Gtxn, mbind, M_bind, bind, ask. by rewrite H. Qed.

Lemma eval_Gtxn_type_enum i t :
  group e !! i = Some t →
  Gtxn_type_enum i e m = Some (Uint (TxnType_value (gtxn_type_enum t)), m).
Proof.
  intros H. unfold Gtxn_type_enum. by rewrite (bind_Some _ _ _ _ (eval_Gtxn _ _ H)).
Qed.

Lemma eval_Gtxn_receiver i t :
  group e !! i = Some t →
  Gtxn_receiver i e m = Some (Bytes (gtxn_receiver t), m).
Proof.
  intros H. unfold Gtxn_receiver. by rewrite (bind_Some _ _ _ _ (eval_Gtxn _ _ H)).
Qed.

Lemma eval_Gtxn_amount i t :
  group e !! i = Some t →
  Gtxn_amount i e m = Some (Uint (gtxn_amount t), m).
Proof.
  intros H. unfold Gtxn_amount. by rewrite (bind_Some _ _ _ _ (eval_Gtxn _ _ H)).
Qed.

Lemma fail_Gtxn_type_enum i :
  group e !! i = None → Gtxn_type_enum i e m = None.
Proof. intros H. unfold Gtxn_type_enum. by rewrite (bind_None _ _ (fail_Gtxn _ H)). Qed.

Lemma eval_TxnType_Payment : TxnType_Payment e m = Some (Uint 1, m).
Proof. done. Qed.

Lemma eval_Global_zero_address :
  Global_zero_address e m = Some (Bytes zero_address, m).
Proof. done. Qed.

Lemma eval_Global_creator_address :
  Global_creator_address e m = Some (Bytes (creator_address e), m).
Proof. done. Qed.

Lemma eval_Global_latest_timestamp :
  Global_latest_timestamp e m = Some (Uint (latest_timestamp e), m).
Proof. done. Qed.

Lemma eval_Global_current_application_address :
  Global_current_application_address e m
  = Some (Bytes (current_application_address e), m).
Proof. done. Qed.

Lemma eval_App_globalGet key v :
  globals m !! key = Some v → App_globalGet key e m = Some (v, m).
Proof.
  intros H. unfold App_globalGet, mbind, M_bind, bind, get, mret, M_ret, ret.
  by rewrite H.
Qed.

Lemma eval_Btoi x b n :
  x e m = Some (Bytes b, m) → btoi b = Some n → Btoi x e m = Some (Uint n, m).
Proof.
  intros Hx Hb. unfold Btoi. rewrite (bind_Some _ _ _ _ Hx). simpl.
  unfold mbind, M_bind, bind, ret. simpl. by rewrite Hb.
Qed.

Lemma fail_Btoi x b :
  x e m = Some (Bytes b, m) → btoi b = None → Btoi x e m = None.
Proof.
  intros Hx Hb. unfold Btoi. rewrite (bind_Some _ _ _ _ Hx). simpl.
  unfold mbind, M_bind, bind, ret. simpl. by rewrite Hb.
Qed.

Lemma eval_Eq_uint x y n k :
  x e m = Some (Uint n, m) → y e m = Some (Uint k, m) →
  Eq x y e m = Some (of_bool (bool_decide (n = k)), m).
Proof.
  intros Hx Hy. unfold Eq.
  by rewrite (bind_Some _ _ _ _ Hx), (bind_Some _ _ _ _ Hy).
Qed.

Lemma eval_Eq_bytes x y s t :
  x e m = Some (Bytes s, m) → y e m = Some (Bytes t, m) →
  Eq x y e m = Some (of_bool (bool_decide (s = t)), m).
Proof.
  intros Hx Hy. unfold Eq.
  by rewrite (bind_Some _ _ _ _ Hx), (bind_Some _ _ _ _ Hy).
Qed.

Lemma eval_Neq_bytes x y s t :
  x e m = Some (Bytes s, m) → y e m = Some (Bytes t, m) →
  Neq x y e m = Some (of_bool (bool_decide (s ≠ t)), m).
Proof.
  intros Hx Hy. unfold Neq.
  by rewrite (bind_Some _ _ _ _ Hx), (bind_Some _ _ _ _ Hy).
Qed.

Lemma fail_Eq_l x y : x e m = None → Eq x y e m = None.
Proof. intros Hx. unfold Eq. by rewrite (bind_None _ _ Hx). Qed.

Lemma fail_Eq_r x y a : x e m = Some (a, m) → y e m = None → Eq x y e m = None.
Proof.
  intros Hx Hy. unfold Eq.
  by rewrite (bind_Some _ _ _ _ Hx), (bind_None _ _ Hy).
Qed.

Lemma eval_Gt x y n k :
  x e m = Some (Uint n, m) → y e m = Some (Uint k, m) →
  Gt x y e m = Some (of_bool (bool_decide (n > k)), m).
Proof.
  intros Hx Hy. unfold Gt.
  by rewrite (bind_Some _ _ _ _ Hx), (bind_Some _ _ _ _ Hy).
Qed.

Lemma fail_Gt_r x y a : x e m = Some (a, m) → y e m = None → Gt x y e m = None.
Proof.
  intros Hx Hy. unfold Gt.
  by rewrite (bind_Some _ _ _ _ Hx), (bind_None _ _ Hy).
Qed.

Lemma eval_Add x y n k :
  x e m = Some (Uint n, m) → y e m = Some (Uint k, m) →
  n + k ≤ uint64_max →
  Add x y e m = Some (Uint (n + k), m).
Proof.
  intros Hx Hy Hle. unfold Add.
  rewrite (bind_Some _ _ _ _ Hx), (bind_Some _ _ _ _ Hy). simpl.
  unfold mbind, M_bind, bind, ret. by rewrite decide_True.
Qed.

Lemma fail_Add x y n k :
  x e m = Some (Uint n, m) → y e m = Some (Uint k, m) →
  ¬ n + k ≤ uint64_max →
  Add x y e m = None.
Proof.
  intros Hx Hy Hle. unfold Add.
  rewrite (bind_Some _ _ _ _ Hx), (bind_Some _ _ _ _ Hy). simpl.
  unfold mbind, M_bind, bind, ret. by rewrite decide_False.
Qed.

Lemma eval_Mul x y n k :
  x e m = Some (Uint n, m) → y e m = Some (Uint k, m) →
  n * k ≤ uint64_max →
  Mul x y e m = Some (Uint (n * k), m).
Proof.
  intros Hx Hy Hle. unfold Mul.
  rewrite (bind_Some _ _ _ _ Hx), (bind_Some _ _ _ _ Hy). simpl.
  unfold mbind, M_bind, bind, ret. by rewrite decide_True.
Qed.

Lemma fail_Mul x y n k :
  x e m = Some (Uint n, m) → y e m = Some (Uint k, m) →
  ¬ n * k ≤ uint64_max →
  Mul x y e m = None.
Proof.
  intros Hx Hy Hle. unfold Mul.
  rewrite (bind_Some _ _ _ _ Hx), (bind_Some _ _ _ _ Hy). simpl.
  unfold mbind, M_bind, bind, ret. by rewrite decide_False.
Qed.

Lemma eval_Minus x y n k :
  x e m = Some (Uint n, m) → y e m = Some (Uint k, m) →
  k ≤ n →
  Minus x y e m = Some (Uint (n - k), m).
Proof.
  intros Hx Hy Hle. unfold Minus.
  rewrite (bind_Some _ _ _ _ Hx), (bind_Some _ _ _ _ Hy). simpl.
  unfold mbind, M_bind, bind, ret. by rewrite decide_True.
Qed.

Lemma fail_Minus x y n k :
  x e m = Some (Uint n, m) → y e m = Some (Uint k, m) →
  ¬ k ≤ n →
  Minus x y e m = None.
Proof.
  intros Hx Hy Hle. unfold Minus.
  rewrite (bind_Some _ _ _ _ Hx), (bind_Some _ _ _ _ Hy). simpl.
  unfold mbind, M_bind, bind, ret. by rewrite decide_False.
Qed.

Lemma fail_Minus_l x y : x e m = None → Minus x y e m = None.
Proof. intros Hx. unfold Minus. by rewrite (bind_None _ _ Hx). Qed.

Lemma eval_Or x y a b :
  x e m = Some (of_bool a, m) → y e m = Some (of_bool b, m) →
  Or x y e m = Some (of_bool (a || b), m).
Proof.
  intros Hx Hy. unfold Or.
  rewrite (bind_Some _ _ _ _ Hx), (bind_Some _ _ _ _ Hy).
  destruct a, b; done.
Qed.

(** ** Statements *)

Lemma run_Assert {A} cond (k : M A) b :
  cond e m = Some (of_bool b, m) →
  (Assert cond ;; k) e m = if b then k e m else None.
Proof.
  intros Hc. unfold Assert.
  unfold mbind at 1. unfold M_bind at 1. unfold bind at 1.
  rewrite (bind_Some _ _ _ _ Hc). by destruct b.
Qed.

Lemma fail_Assert {A} cond (k : M A) :
  cond e m = None → (Assert cond ;; k) e m = None.
Proof.
  intros Hc. unfold Assert.
  unfold mbind at 1. unfold M_bind at 1. unfold bind at 1.
  by rewrite (bind_None _ _ Hc).
Qed.

Lemma run_App_globalPut {A} key value (k : M A) v :
  value e m = Some (v, m) →
  (App_globalPut key value ;; k) e m
  = k e {| globals := <[key := v]> (globals m);
           pending := pending m; submitted := submitted m |}.
Proof.
  intros Hv. unfold App_globalPut.
  unfold mbind at 1. unfold M_bind at 1. unfold bind at 1.
  by rewrite (bind_Some _ _ _ _ Hv).
Qed.

Lemma fail_App_globalPut {A} key value (k : M A) :
  value e m = None → (App_globalPut key value ;; k) e m = None.
Proof.
  intros Hv. unfold App_globalPut.
  unfold mbind at 1. unfold M_bind at 1. unfold bind at 1.
  by rewrite (bind_None _ _ Hv).
Qed.

Lemma run_Cond c body rest b :
  c e m = Some (of_bool b, m) →
  Cond ((c, body) :: rest) e m = if b then body e m else Cond rest e m.
Proof.
  intros Hc. simpl. rewrite (bind_Some _ _ _ _ Hc). by destruct b.
Qed.

Lemma fail_Cond c body rest :
  c e m = None → Cond ((c, body) :: rest) e m = None.
Proof. intros Hc. simpl. by rewrite (bind_None _ _ Hc). Qed.

Lemma run_InnerTxnBuilder {A} ty receiver amount fee (k : M A) rb an fn :
  let m1 := {| globals := globals m;
               pending := Some {| itxn_type_enum := Unknown;
                                  itxn_receiver := zero_address;
                                  itxn_amount := 0; itxn_fee := 0 |};
               submitted := submitted m |} in
  receiver e m1 = Some (Bytes rb, m1) →
  amount e m1 = Some (Uint an, m1) →
  fee e m1 = Some (Uint fn, m1) →
  (InnerTxnBuilder_Begin;;
   InnerTxnBuilder_SetFields ty receiver amount fee;;
   InnerTxnBuilder_Submit;; k) e m
  = k e {| globals := globals m; pending := None;
           submitted := submitted m
                        ++ [ {| itxn_type_enum := ty; itxn_receiver := rb;
                                itxn_amount := an; itxn_fee := fn |} ] |}.
Proof.
  intros m1 Hr Ha Hf.
  unfold InnerTxnBuilder_Begin, InnerTxnBuilder_SetFields,
    InnerTxnBuilder_Submit, mbind, M_bind, bind, get, put. simpl.
  fold m1. rewrite Hr. simpl. rewrite Ha. simpl. by rewrite Hf.
Qed.

Lemma fail_InnerTxnBuilder {A} ty receiver amount fee (k : M A) rb :
  let m1 := {| globals := globals m;
               pending := Some {| itxn_type_enum := Unknown;
                                  itxn_receiver := zero_address;
                                  itxn_amount := 0; itxn_fee := 0 |};
               submitted := submitted m |} in
  receiver e m1 = Some (Bytes rb, m1) →
  amount e m1 = None →
  (InnerTxnBuilder_Begin;;
   InnerTxnBuilder_SetFields ty receiver amount fee;;
   InnerTxnBuilder_Submit;; k) e m = None.
Proof.
  intros m1 Hr Ha.
  unfold InnerTxnBuilder_Begin, InnerTxnBuilder_SetFields,
    InnerTxnBuilder_Submit, mbind, M_bind, bind, get, put. simpl.
  fold m1. rewrite Hr. simpl. by rewrite Ha.
Qed.

End Evaluation.

#[export] Hint Resolve eval_Int eval_BytesLit eval_Txn_sender
  eval_Txn_application_id eval_Txn_on_completion eval_Txn_application_args
  eval_Gtxn_type_enum eval_Gtxn_receiver eval_Gtxn_amount
  eval_TxnType_Payment eval_Global_zero_address eval_Global_creator_address
  eval_Global_latest_timestamp eval_Global_current_application_address
  eval_Eq_uint eval_Eq_bytes eval_Neq_bytes eval_Gt eval_Or : teal.

#[export] Hint Extern 1 (App_globalGet _ _ _ = Some _) =>
  apply eval_App_globalGet; reflexivity : teal.

(** One step of a branch: a passing or failing [Assert], or a store
    update, whose operands the [teal] hints evaluate. *)
Ltac teal_eval := eauto 12 with teal nocore.

Ltac teal_step :=
  first [ erewrite run_Assert by teal_eval
        | erewrite run_App_globalPut by teal_eval ].

Ltac teal_finish :=
  repeat case_bool_decide; simpl; try done; try lia.

(** * The branches of the program on a stored record *)

Section Handlers.

Variable server : string.

Lemma TxnType_value_Payment t : TxnType_value t = 1 ↔ t = Payment.
Proof. by destruct t. Qed.

Lemma run_on_join e r :
  on_join e (start (store r))
  = if join_pre e r then Some (Uint 1, start (store (join_post e r)))
    else None.
Proof.
  unfold on_join, join_pre, paired_payment, start, STATUS_WAITING, STATUS_ACTIVE.
  do 3 teal_step.
  destruct (group e !! 1%nat) as [t|] eqn:Ht.
  - repeat teal_step.
    rewrite (bool_decide_ext _ _ (TxnType_value_Payment _)).
    teal_finish.
  - rewrite fail_Assert by eauto using fail_Eq_l, fail_Gtxn_type_enum.
    teal_finish.
Qed.

Lemma run_on_deposit e r :
  on_deposit e (start (store r))
  = if deposit_pre e r then Some (Uint 1, start (store r)) else None.
Proof.
  unfold on_deposit, deposit_pre, paired_payment, start.
  teal_step.
  destruct (group e !! 1%nat) as [t|] eqn:Ht.
  - repeat teal_step.
    rewrite (bool_decide_ext _ _ (TxnType_value_Payment _)).
    teal_finish.
  - rewrite fail_Assert by eauto using fail_Eq_l, fail_Gtxn_type_enum.
    teal_finish.
Qed.

Lemma run_on_declare_winner e r :
  on_declare_winner server e (start (store r))
  = if declare_winner_pre server e r
    then Some (Uint 1,
               start (store (declare_winner_post
                               (default "" (application_args e !! 1%nat)) r)))
    else None.
Proof.
  unfold on_declare_winner, declare_winner_pre, server_or_creator,
    GAME_SERVER, start, STATUS_ACTIVE, STATUS_COMPLETE.
  do 2 teal_step.
  destruct (application_args e !! 1%nat) as [p|] eqn:Hp.
  - repeat teal_step. simpl.
    destruct (_ || _), (bool_decide (status r = 1)), (_ || _); done.
  - rewrite fail_Assert.
    + by destruct (_ || _), (bool_decide _).
    + unfold Or. apply bind_None, fail_Eq_l, fail_Txn_application_args, Hp.
Qed.

Lemma eval_pot e m w :
  globals m !! wager_key = Some (Uint w) →
  pot_computable w = true →
  Minus (Mul (App_globalGet wager_key) (Int 2)) (Int 1000) e m
  = Some (Uint (w * 2 - 1000), m).
Proof.
  intros Hw [H1 H2]%andb_prop.
  apply bool_decide_eq_true in H1, H2.
  eapply eval_Minus; [|apply eval_Int|done].
  eapply eval_Mul; [|apply eval_Int|done].
  by apply eval_App_globalGet.
Qed.

Lemma fail_pot e m w :
  globals m !! wager_key = Some (Uint w) →
  pot_computable w = false →
  Minus (Mul (App_globalGet wager_key) (Int 2)) (Int 1000) e m = None.
Proof.
  intros Hw H. pose proof (eval_App_globalGet e m _ _ Hw) as Hg.
  destruct (decide (w * 2 ≤ uint64_max)) as [Hle|Hle].
  - eapply fail_Minus; [eapply eval_Mul; eauto using eval_Int|apply eval_Int|].
    intros Hlo. unfold pot_computable in H.
    rewrite !bool_decide_eq_true_2 in H by done. done.
  - apply fail_Minus_l. eapply fail_Mul; eauto using eval_Int.
Qed.

Lemma run_on_claim e r :
  on_claim e (start (store r))
  = if claim_pre e r
    then Some (Uint 1,
               {| globals := store r; pending := None;
                  submitted := [payment (sender e) (wager r * 2 - 1000)] |})
    else None.
Proof.
  unfold on_claim, claim_pre, start, STATUS_COMPLETE.
  do 2 teal_step.
  destruct (pot_computable (wager r)) eqn:Hpot.
  - erewrite run_InnerTxnBuilder;
      [|apply eval_Txn_sender|eapply eval_pot; [reflexivity|done]|apply eval_Int].
    destruct (bool_decide _), (bool_decide _); done.
  - erewrite fail_InnerTxnBuilder;
      [|apply eval_Txn_sender|eapply fail_pot; [reflexivity|done]].
    destruct (bool_decide _), (bool_decide _); done.
Qed.

Lemma run_on_cancel e r :
  on_cancel e (start (store r))
  = if cancel_pre e r
    then Some (Uint 1,
               {| globals := store r; pending := None;
                  submitted := [payment (player1 r) (wager r - 1000)] |})
    else None.
Proof.
  unfold on_cancel, cancel_pre, start, JOIN_TIMEOUT, STATUS_WAITING.
  do 2 teal_step.
  destruct (decide (created_at r + 3600 ≤ uint64_max)) as [Hc|Hc].
  - erewrite run_Assert by (eapply eval_Gt; [teal_eval|eapply eval_Add; [teal_eval..|done]]).
    destruct (decide (1000 ≤ wager r)) as [Hw|Hw].
    + erewrite run_InnerTxnBuilder;
        [|teal_eval|eapply eval_Minus; teal_eval|apply eval_Int].
      teal_finish.
    + erewrite fail_InnerTxnBuilder;
        [|teal_eval|eapply fail_Minus; teal_eval].
      teal_finish.
  - rewrite fail_Assert.
    + teal_finish.
    + eapply fail_Gt_r; [apply eval_Global_latest_timestamp|].
      eapply fail_Add; teal_eval.
Qed.

Lemma run_on_timeout_claim e r :
  on_timeout_claim e (start (store r))
  = if timeout_claim_pre e r
    then Some (Uint 1,
               {| globals := store (timeout_claim_post e r); pending := None;
                  submitted := [payment (sender e) (wager r * 2 - 1000)] |})
    else None.
Proof.
  unfold on_timeout_claim, timeout_claim_pre, start, ABANDON_TIMEOUT,
    STATUS_ACTIVE, STATUS_COMPLETE.
  do 2 teal_step.
  destruct (decide (last_move r + 259200 ≤ uint64_max)) as [Hc|Hc].
  - erewrite run_Assert by (eapply eval_Gt; [teal_eval|eapply eval_Add; [teal_eval..|done]]).
    do 2 teal_step.
    destruct (pot_computable (wager r)) eqn:Hpot.
    + erewrite run_InnerTxnBuilder;
        [|apply eval_Txn_sender|eapply eval_pot; [reflexivity|done]|apply eval_Int].
      destruct (bool_decide (status r = 1)), (_ || _); teal_finish.
    + erewrite fail_InnerTxnBuilder;
        [|apply eval_Txn_sender|eapply fail_pot; [reflexivity|done]].
      destruct (bool_decide (status r = 1)), (_ || _); teal_finish.
  - rewrite fail_Assert.
    + destruct (bool_decide (status r = 1)), (_ || _); teal_finish.
    + eapply fail_Gt_r; [apply eval_Global_latest_timestamp|].
      eapply fail_Add; teal_eval.
Qed.

Lemma run_on_update_move e r :
  on_update_move server e (start (store r))
  = if update_move_pre server e r
    then Some (Uint 1, start (store (update_move_post e r)))
    else None.
Proof.
  unfold on_update_move, update_move_pre, server_or_creator, GAME_SERVER,
    start, STATUS_ACTIVE.
  repeat teal_step.
  destruct (_ || _), (bool_decide (status r = 1)); done.
Qed.

Lemma run_on_create e a gid w :
  application_args e !! 0%nat = Some a →
  application_args e !! 1%nat = Some gid →
  btoi a = Some w →
  on_create e (start ∅) = Some (Uint 1, start (store (create_post e w gid))).
Proof.
  intros Ha Hg Hw. unfold on_create, start, STATUS_WAITING.
  erewrite !run_App_globalPut by (teal_eval || (eapply eval_Btoi; [teal_eval|done])).
  done.
Qed.

End Handlers.

(** The leading branches of [Cond] that a call passes over. *)
Ltac cond_side :=
  try match goal with
      | H : on_completion _ = _ |- _ => rewrite H
      end;
  cbn [OnComplete_value]; done.

Ltac cond_skip :=
  erewrite run_Cond by teal_eval;
  rewrite bool_decide_eq_false_2 by cond_side;
  cbv iota.

Ltac cond_take :=
  erewrite run_Cond by teal_eval;
  rewrite bool_decide_eq_true_2 by cond_side;
  cbv iota.

Ltac unfold_routing :=
  unfold approval_program, OnComplete_DeleteApplication,
    OnComplete_UpdateApplication, OnComplete_CloseOut, OnComplete_OptIn.

Section Dispatch.

Variable server : string.

Lemma execute_approval e g :
  on_completion e ≠ ClearState →
  execute server e g
  = settle g (approval_program server e (start g)).
Proof. intros H. unfold execute. by rewrite decide_False. Qed.

Lemma approval_program_method e r op :
  routes op e →
  settle (store r) (approval_program server e (start (store r)))
  = method_outcome server op e r.
Proof.
  intros (Hid & Hoc & Hop). unfold_routing. unfold method_outcome.
  cond_skip. do 4 cond_skip.
  repeat (erewrite run_Cond by teal_eval;
          rewrite (bool_decide_decide (op = _));
          destruct (decide (op = _)) as [->|?]).
  - rewrite run_on_join. by destruct (join_pre e r).
  - rewrite run_on_deposit. by destruct (deposit_pre e r).
  - rewrite run_on_declare_winner. by destruct (declare_winner_pre _ e r).
  - rewrite run_on_claim. by destruct (claim_pre e r).
  - rewrite run_on_cancel. by destruct (cancel_pre e r).
  - rewrite run_on_timeout_claim. by destruct (timeout_claim_pre e r).
  - rewrite run_on_update_move. by destruct (update_move_pre _ e r).
  - done.
Qed.

Lemma execute_call e r :
  application_id e ≠ 0 →
  execute server e (store r) = call_outcome server e r.
Proof.
  intros Hid. unfold call_outcome.
  destruct (decide (on_completion e = ClearState)) as [Hcs|Hcs].
  { unfold execute. by rewrite Hcs. }
  rewrite execute_approval by done.
  destruct (on_completion e) eqn:Hoc.
  - destruct (application_args e !! 0%nat) as [op|] eqn:Hop.
    + by apply approval_program_method.
    + unfold_routing. cond_skip. do 4 cond_skip.
      rewrite fail_Cond; [done|].
      by apply fail_Eq_l, fail_Txn_application_args.
  - unfold_routing. cond_skip. do 3 cond_skip. by cond_take.
  - unfold_routing. cond_skip. do 2 cond_skip. by cond_take.
  - done.
  - unfold_routing. cond_skip. cond_skip. cond_take.
    unfold Return, is_creator. erewrite eval_Eq_bytes by teal_eval.
    simpl. by case_bool_decide.
  - unfold_routing. cond_skip. cond_take.
    unfold Return, is_creator. erewrite eval_Eq_bytes by teal_eval.
    simpl. by case_bool_decide.
Qed.

Lemma execute_method e r op :
  routes op e →
  execute server e (store r) = method_outcome server op e r.
Proof.
  intros Hr. pose proof Hr as (Hid & Hoc & Hop).
  rewrite execute_call by done. unfold call_outcome. by rewrite Hoc, Hop.
Qed.

Lemma execute_create e a gid w :
  application_id e = 0 →
  on_completion e ≠ ClearState →
  application_args e !! 0%nat = Some a →
  application_args e !! 1%nat = Some gid →
  btoi a = Some w →
  execute server e ∅ = accepted (store (create_post e w gid)) [].
Proof.
  intros Hid Hoc Ha Hg Hw. rewrite execute_approval by done.
  unfold_routing. cond_take. by erewrite run_on_create.
Qed.

End Dispatch.

(** * Creation and the shape of reachable stores *)

Section Reachability.

Variable server : string.

(** The outcome of the creating call. *)
Lemma execute_create_cases e :
  application_id e = 0 →
  on_completion e ≠ ClearState →
  execute server e ∅
  = match application_args e !! 0%nat, application_args e !! 1%nat with
    | Some a, Some gid =>
        match btoi a with
        | Some w => accepted (store (create_post e w gid)) []
        | None => rejected ∅
        end
    | _, _ => rejected ∅
    end.
Proof.
  intros Hid Hoc.
  destruct (application_args e !! 0%nat) as [a|] eqn:Ha.
  - destruct (application_args e !! 1%nat) as [gid|] eqn:Hg.
    + destruct (btoi a) as [w|] eqn:Hw; [by eapply execute_create|].
      rewrite execute_approval by done. unfold_routing. cond_take.
      unfold on_create, start. do 2 teal_step.
      rewrite fail_App_globalPut; [done|].
      eapply fail_Btoi; [teal_eval|done].
    + destruct (btoi a) as [w|] eqn:Hw.
      * rewrite execute_approval by done. unfold_routing. cond_take.
        unfold on_create, start. do 2 teal_step.
        erewrite run_App_globalPut by (eapply eval_Btoi; [teal_eval|done]).
        rewrite fail_App_globalPut; [done|].
        by apply fail_Txn_application_args.
      * rewrite execute_approval by done. unfold_routing. cond_take.
        unfold on_create, start. do 2 teal_step.
        rewrite fail_App_globalPut; [done|].
        eapply fail_Btoi; [teal_eval|done].
  - rewrite execute_approval by done. unfold_routing. cond_take.
    unfold on_create, start. do 2 teal_step.
    rewrite fail_App_globalPut; [done|].
    unfold Btoi. by apply bind_None, fail_Txn_application_args.
Qed.

(** Every call to an existing application leaves a stored record. *)
Lemma call_outcome_record e r :
  ∃ r', committed (call_outcome server e r) = store r'
        ∧ player1 r' = player1 r
        ∧ wager r' = wager r
        ∧ (status r' = status r
           ∨ (status r = 0 ∧ status r' = 1)
           ∨ (status r = 1 ∧ status r' = 2)).
Proof.
  assert (∃ r', store r = store r' ∧ player1 r' = player1 r
                ∧ wager r' = wager r
                ∧ (status r' = status r
                   ∨ (status r = 0 ∧ status r' = 1)
                   ∨ (status r = 1 ∧ status r' = 2))) as Hsame
    by (exists r; split_and?; auto).
  unfold call_outcome.
  destruct (on_completion e); try done; try (by case_bool_decide).
  destruct (application_args e !! 0%nat) as [op|]; [|done].
  unfold method_outcome.
  repeat case_decide; try done; try (by case_match).
  - unfold join_pre. destruct (bool_decide (status r = 0)) eqn:Hs; [|done].
    apply bool_decide_eq_true in Hs.
    case_match; [|done]. exists (join_post e r). simpl. split_and?; auto.
  - unfold declare_winner_pre.
    destruct (bool_decide (status r = 1)) eqn:Hs;
      [|by rewrite andb_false_r].
    apply bool_decide_eq_true in Hs.
    case_match; [|done].
    exists (declare_winner_post (default "" (application_args e !! 1%nat)) r).
    simpl. split_and?; auto.
  - unfold timeout_claim_pre.
    destruct (bool_decide (status r = 1)) eqn:Hs; [|done].
    apply bool_decide_eq_true in Hs.
    case_match; [|done]. exists (timeout_claim_post e r).
    simpl. split_and?; auto.
  - case_match; [|done]. exists (update_move_post e r).
    simpl. split_and?; auto.
Qed.

Lemma reachable_record creator app g :
  reachable server creator app g →
  ∃ r, g = store r ∧ player1 r = creator
       ∧ (status r = 0 ∨ status r = 1 ∨ status r = 2).
Proof.
  induction 1 as [e Hid Hoc Hs Hc Ha Happ|e g Hg IH Hid Hc Ha Happ].
  - rewrite execute_create_cases in * by done.
    repeat case_match; try done.
    eexists; split; [done|]. simpl; split_and?; auto.
  - destruct IH as (r & -> & Hp & Hst).
    rewrite execute_call by done.
    destruct (call_outcome_record e r) as (r' & -> & Hp' & _ & Hs').
    exists r'. split; [done|]. split; [congruence|lia].
Qed.

End Reachability.

(** * Properties of the operations *)

Section Operations.

Variable server : string.

Lemma paired_payment_spec e a :
  paired_payment e a = true
  ↔ ∃ t, group e !! 1%nat = Some t
         ∧ gtxn_type_enum t = Payment
         ∧ gtxn_receiver t = current_application_address e
         ∧ gtxn_amount t = a.
Proof.
  unfold paired_payment. split.
  - destruct (group e !! 1%nat) as [t|]; [|done].
    rewrite !andb_true_iff, !bool_decide_eq_true.
    intros [[? ?] ?]. by exists t.
  - intros (t & -> & ? & ? & ?).
    rewrite !andb_true_iff, !bool_decide_eq_true. done.
Qed.

Lemma server_or_creator_spec e :
  server_or_creator server e = true
  ↔ sender e = server ∨ sender e = creator_address e.
Proof.
  unfold server_or_creator.
  by rewrite orb_true_iff, !bool_decide_eq_true.
Qed.

Lemma pot_computable_spec w :
  pot_computable w = true ↔ 1000 ≤ w * 2 ≤ uint64_max.
Proof.
  unfold pot_computable. rewrite andb_true_iff, !bool_decide_eq_true. lia.
Qed.

(** C5: a join call is approved if and only if status is Waiting (0),
    the sender is not player1, player2 is the zero address and the
    second transaction of the group is a payment of exactly the wager
    to the application address.  When approved, player2 becomes the
    sender, status becomes Active (1), last_move becomes the current
    timestamp and nothing is paid out.  A paired payment of wager + 1
    or wager - 1 is rejected and the record, hence its status, stays as
    it was. *)
Theorem join_activates_on_exact_payment e r :
  routes "join" e →
  let o := execute server e (store r) in
  (approved o = true
   ↔ status r = 0 ∧ sender e ≠ player1 r ∧ player2 r = zero_address
     ∧ ∃ t, group e !! 1%nat = Some t
            ∧ gtxn_type_enum t = Payment
            ∧ gtxn_receiver t = current_application_address e
            ∧ gtxn_amount t = wager r)
  ∧ (approved o = true →
     committed o = store (join_post e r)
     ∧ player2 (join_post e r) = sender e
     ∧ status (join_post e r) = 1
     ∧ last_move (join_post e r) = latest_timestamp e
     ∧ transfers o = [])
  ∧ (∀ t, group e !! 1%nat = Some t →
          gtxn_amount t = wager r + 1 ∨ gtxn_amount t = wager r - 1 →
          approved o = false ∧ committed o = store r ∧ transfers o = []).
Proof.
  intros Hr o. subst o. rewrite (execute_method _ _ _ _ Hr).
  unfold method_outcome. rewrite decide_True by done.
  split_and!.
  - destruct (join_pre e r) eqn:Hpre; simpl.
    + unfold join_pre in Hpre.
      rewrite !andb_true_iff, !bool_decide_eq_true, paired_payment_spec in Hpre.
      split; [intros _; tauto|done].
    + split; [done|]. intros (? & ? & ? & Hp).
      apply paired_payment_spec in Hp.
      unfold join_pre in Hpre.
      rewrite !bool_decide_eq_true_2, Hp in Hpre by done. done.
  - by destruct (join_pre e r).
  - intros t Ht Hamt.
    assert (join_pre e r = false) as ->; [|done].
    unfold join_pre, paired_payment. rewrite Ht.
    rewrite (bool_decide_eq_false_2 (gtxn_amount t = wager r)) by lia.
    by rewrite !andb_false_r.
Qed.

(** C10: a deposit call is approved if and only if the sender is
    player1 and the second transaction of the group is a payment of
    exactly the wager to the application address.  The status plays no
    part: the call is approved or not alike whatever status the record
    holds.  An approved deposit leaves every field of the record
    unchanged and pays nothing out. *)
Theorem deposit_checks_caller_and_payment_only e r :
  routes "deposit" e →
  let o := execute server e (store r) in
  (approved o = true
   ↔ sender e = player1 r
     ∧ ∃ t, group e !! 1%nat = Some t
            ∧ gtxn_type_enum t = Payment
            ∧ gtxn_receiver t = current_application_address e
            ∧ gtxn_amount t = wager r)
  ∧ (∀ s, approved (execute server e (store (with_status s r))) = approved o)
  ∧ (approved o = true → committed o = store r ∧ transfers o = []).
Proof.
  intros Hr o. subst o. rewrite (execute_method _ _ _ _ Hr).
  split_and!.
  - unfold method_outcome. rewrite decide_False, decide_True by done.
    destruct (deposit_pre e r) eqn:Hpre; simpl.
    + unfold deposit_pre in Hpre.
      rewrite !andb_true_iff, !bool_decide_eq_true, paired_payment_spec in Hpre.
      split; [intros _; tauto|done].
    + split; [done|]. intros (? & Hp).
      apply paired_payment_spec in Hp.
      unfold deposit_pre in Hpre.
      rewrite !bool_decide_eq_true_2, Hp in Hpre by done. done.
  - intros s. rewrite (execute_method _ _ _ _ Hr).
    unfold method_outcome. rewrite !decide_False, !decide_True by done.
    unfold deposit_pre. simpl. by destruct (_ && _).
  - unfold method_outcome. rewrite decide_False, decide_True by done.
    by destruct (deposit_pre e r).
Qed.

(** C6: a declare_winner call is approved if and only if the sender is
    the game server or the application's creator, status is Active (1)
    and the declared winner is player1 or player2; every other call is
    rejected.  When approved with winner [p], winner becomes [p] and
    status becomes Complete (2). *)
Theorem declare_winner_completes_active_game e r :
  routes "declare_winner" e →
  let o := execute server e (store r) in
  (approved o = true
   ↔ (sender e = server ∨ sender e = creator_address e)
     ∧ status r = 1
     ∧ ∃ p, application_args e !! 1%nat = Some p
            ∧ (p = player1 r ∨ p = player2 r))
  ∧ (∀ p, application_args e !! 1%nat = Some p →
          approved o = true →
          committed o = store (declare_winner_post p r)
          ∧ winner (declare_winner_post p r) = p
          ∧ status (declare_winner_post p r) = 2
          ∧ transfers o = []).
Proof.
  intros Hr o. subst o. rewrite (execute_method _ _ _ _ Hr).
  unfold method_outcome. rewrite !decide_False, decide_True by done.
  split_and!.
  - destruct (declare_winner_pre _ e r) eqn:Hpre; simpl.
    + unfold declare_winner_pre in Hpre.
      rewrite !andb_true_iff, server_or_creator_spec, bool_decide_eq_true
        in Hpre.
      destruct Hpre as ((Hs & Hst) & Hp).
      destruct (application_args e !! 1%nat) as [p|]; [|done].
      rewrite orb_true_iff, !bool_decide_eq_true in Hp.
      split; [intros _|done]. split_and!; [done..|]. by exists p.
    + split; [done|]. intros (Hs & Hst & p & Hp & Hw).
      unfold declare_winner_pre in Hpre.
      apply server_or_creator_spec in Hs.
      rewrite Hs, Hp, (bool_decide_eq_true_2 _ Hst) in Hpre.
      destruct Hw as [->| ->];
        rewrite (bool_decide_eq_true_2 _ (eq_refl _)) in Hpre;
        simpl in Hpre; rewrite ?orb_true_r in Hpre; done.
  - intros p Hp. rewrite Hp. by destruct (declare_winner_pre _ e r).
Qed.

(** C7: every approved payout pays the exact integer amount: claim and
    timeout_claim pay 2 * wager - 1000 to the sender, who is the winner,
    and cancel pays wager - 1000 to player1; the amounts are uint64
    values, computed without wrap-around.  With wager 1_000_000 a claim
    pays 1_999_000. *)
Theorem payouts_are_pot_minus_reserve e r :
  approved (execute server e (store r)) = true →
  (routes "claim" e →
   transfers (execute server e (store r))
   = [payment (sender e) (2 * wager r - 1000)]
   ∧ sender e = winner r
   ∧ 0 ≤ 2 * wager r - 1000 ≤ uint64_max)
  ∧ (routes "timeout_claim" e →
     transfers (execute server e (store r))
     = [payment (sender e) (2 * wager r - 1000)]
     ∧ 0 ≤ 2 * wager r - 1000 ≤ uint64_max)
  ∧ (routes "cancel" e →
     transfers (execute server e (store r))
     = [payment (player1 r) (wager r - 1000)]
     ∧ 0 ≤ wager r - 1000)
  ∧ (routes "claim" e → wager r = 1000000 →
     transfers (execute server e (store r)) = [payment (sender e) 1999000]).
Proof.
  intros Happ.
  assert (∀ w, w * 2 - 1000 = 2 * w - 1000) as Hmul by (intros; lia).
  split_and!; intros Hr; rewrite (execute_method _ _ _ _ Hr) in *;
    unfold method_outcome in *;
    rewrite ?decide_False, ?decide_True in * by done.
  - destruct (claim_pre e r) eqn:Hpre; [|done]. simpl. rewrite Hmul.
    unfold claim_pre in Hpre.
    rewrite !andb_true_iff, !bool_decide_eq_true, pot_computable_spec in Hpre.
    split_and!; [done|tauto|lia..].
  - destruct (timeout_claim_pre e r) eqn:Hpre; [|done]. simpl. rewrite Hmul.
    unfold timeout_claim_pre in Hpre.
    rewrite !andb_true_iff, pot_computable_spec in Hpre.
    split_and!; [done|lia..].
  - destruct (cancel_pre e r) eqn:Hpre; [|done]. simpl.
    unfold cancel_pre in Hpre.
    rewrite !andb_true_iff, !bool_decide_eq_true in Hpre.
    split; [done|lia].
  - intros Hw. destruct (claim_pre e r); [|done]. simpl. by rewrite Hw.
Qed.

End Operations.

Section Lifecycle.

Variable server : string.

(** C8: a timeout_claim call is approved only when status is Active (1),
    the sender is player1 or player2 and the current timestamp is
    strictly greater than last_move + 259200.  When approved, winner
    becomes the sender, status becomes Complete (2) and one payment of
    2 * wager - 1000 goes to the sender.  An approved update_move sets
    last_move to its timestamp [t], after which a timeout_claim at any
    time up to t + 259200 is rejected. *)
Theorem timeout_claim_after_abandon_timeout e r :
  routes "timeout_claim" e →
  let o := execute server e (store r) in
  (approved o = true →
   status r = 1
   ∧ (sender e = player1 r ∨ sender e = player2 r)
   ∧ latest_timestamp e > last_move r + 259200)
  ∧ (approved o = true →
     committed o = store (timeout_claim_post e r)
     ∧ winner (timeout_claim_post e r) = sender e
     ∧ status (timeout_claim_post e r) = 2
     ∧ transfers o = [payment (sender e) (2 * wager r - 1000)])
  ∧ (∀ u, routes "update_move" u →
          approved (execute server u (store r)) = true →
          committed (execute server u (store r)) = store (update_move_post u r)
          ∧ last_move (update_move_post u r) = latest_timestamp u
          ∧ (latest_timestamp e ≤ latest_timestamp u + 259200 →
             approved (execute server e (committed (execute server u (store r)))) = false)).
Proof.
  intros Hr o. subst o. split_and!.
  - rewrite (execute_method _ _ _ _ Hr). unfold method_outcome.
    rewrite !decide_False, !decide_True by done.
    destruct (timeout_claim_pre e r) eqn:Hpre; [|done]. intros _.
    unfold timeout_claim_pre in Hpre.
    rewrite !andb_true_iff, orb_true_iff, !bool_decide_eq_true in Hpre.
    tauto.
  - rewrite (execute_method _ _ _ _ Hr). unfold method_outcome.
    rewrite !decide_False, !decide_True by done.
    destruct (timeout_claim_pre e r); [|done]. intros _. simpl.
    split_and!; try done. do 2 f_equal. lia.
  - intros u Hu. rewrite (execute_method _ _ _ _ Hu).
    unfold method_outcome.
    rewrite !decide_False, !decide_True by done.
    destruct (update_move_pre _ u r); [|done]. intros _.
    cbn [committed accepted].
    split_and!; try done. intros Hle.
    rewrite (execute_method _ _ _ _ Hr). unfold method_outcome.
    rewrite !decide_False, !decide_True by done.
    assert (timeout_claim_pre e (update_move_post u r) = false) as ->; [|done].
    unfold timeout_claim_pre. simpl.
    rewrite (bool_decide_eq_false_2 (latest_timestamp e > _)) by lia.
    by rewrite andb_false_r.
Qed.

(** C9: on every reachable store, an approved call to the existing
    application leaves the status where it was or moves it one step
    forward, from Waiting (0) to Active (1) or from Active (1) to
    Complete (2): never backward, never from Waiting to Complete. *)
Theorem status_only_moves_forward creator app g e :
  reachable server creator app g →
  application_id e ≠ 0 →
  approved (execute server e g) = true →
  ∃ s s',
    status_of g = Some (Uint s)
    ∧ status_of (committed (execute server e g)) = Some (Uint s')
    ∧ (s = 0 ∨ s = 1 ∨ s = 2)
    ∧ (s' = s ∨ (s = 0 ∧ s' = 1) ∨ (s = 1 ∧ s' = 2)).
Proof.
  intros Hg Hid _.
  destruct (reachable_record _ _ _ _ Hg) as (r & -> & _ & Hst).
  rewrite execute_call by done.
  destruct (call_outcome_record server e r)
    as (r' & -> & _ & _ & Hs').
  by exists (status r), (status r').
Qed.

(** C4: a call that is not approved leaves the store exactly as it was
    and carries out no inner transaction, whatever the store; and when
    any check of the branch a call reaches fails on a record, the call
    is not approved, the record is unchanged and nothing is paid out. *)
Theorem failed_check_rejects_whole_call e :
  (∀ g, approved (execute server e g) = false →
        committed (execute server e g) = g ∧ transfers (execute server e g) = [])
  ∧ (∀ op r, routes op e →
             precondition server op e r = false →
             approved (execute server e (store r)) = false
             ∧ committed (execute server e (store r)) = store r
             ∧ transfers (execute server e (store r)) = []).
Proof.
  split.
  - intros g. unfold execute, settle.
    repeat case_match; simpl; done.
  - intros op r Hr. rewrite (execute_method _ _ _ _ Hr).
    unfold precondition, method_outcome.
    repeat case_decide; try done; by intros ->.
Qed.

(** C1 (amended): a call carries out at most one inner payment; a
    record whose status is Complete (2) is changed by no call, and the
    only call that pays from it is a claim by the stored winner; a
    claim is approved exactly when status is Complete, the sender is
    the stored winner and 2 * wager - 1000 is a uint64, in which case
    it pays that amount once to the sender and leaves the record as it
    was; a claim that is not approved pays nothing.  (Whether the
    escrow account can fund a payment is decided by the ledger, not by
    the program.) *)
Theorem claim_pays_stored_winner_and_keeps_record e r :
  application_id e ≠ 0 →
  let o := execute server e (store r) in
  (length (transfers o) ≤ 1)%nat
  ∧ (status r = 2 → committed o = store r)
  ∧ (status r = 2 → transfers o ≠ [] →
     routes "claim" e ∧ sender e = winner r)
  ∧ (routes "claim" e →
     (approved o = true
      ↔ status r = 2 ∧ sender e = winner r ∧ 1000 ≤ wager r * 2 ≤ uint64_max)
     ∧ (approved o = true →
        committed o = store r
        ∧ transfers o = [payment (sender e) (2 * wager r - 1000)])
     ∧ (approved o = false → transfers o = [])).
Proof.
  intros Hid o. subst o. split_and!.
  - rewrite execute_call by done. unfold call_outcome, method_outcome.
    repeat case_match; simpl; lia.
  - intros Hst. rewrite execute_call by done.
    unfold call_outcome, method_outcome, join_pre, declare_winner_pre,
      timeout_claim_pre, update_move_pre.
    rewrite !(bool_decide_eq_false_2 (status r = 0)),
      !(bool_decide_eq_false_2 (status r = 1)) by lia.
    rewrite !andb_false_r. simpl.
    repeat case_match; done.
  - intros Hst. rewrite execute_call by done.
    unfold call_outcome, method_outcome, cancel_pre, timeout_claim_pre.
    rewrite !(bool_decide_eq_false_2 (status r = 0)),
      !(bool_decide_eq_false_2 (status r = 1)) by lia.
    rewrite !andb_false_r. simpl.
    destruct (on_completion e) eqn:Hoc; try done; try by case_bool_decide.
    destruct (application_args e !! 0%nat) as [op|] eqn:Hop; [|done].
    repeat case_decide; try done; try by case_match.
    subst op. destruct (claim_pre e r) eqn:Hpre; [|done]. intros _.
    unfold claim_pre in Hpre.
    rewrite !andb_true_iff, !bool_decide_eq_true in Hpre.
    split; [by repeat split|tauto].
  - intros Hr. rewrite (execute_method _ _ _ _ Hr).
    unfold method_outcome. rewrite !decide_False, !decide_True by done.
    destruct (claim_pre e r) eqn:Hpre; simpl.
    + unfold claim_pre in Hpre.
      rewrite !andb_true_iff, !bool_decide_eq_true, pot_computable_spec
        in Hpre.
      split_and!; [tauto| |done].
      intros _. split; [done|]. do 2 f_equal. lia.
    + split_and!; [|done..]. split; [done|].
      intros (Hs & Hw & Hp). apply pot_computable_spec in Hp.
      unfold claim_pre in Hpre.
      by rewrite !bool_decide_eq_true_2, Hp in Hpre.
Qed.

(** C2 (amended): a cancel call is approved only when the sender is
    player1, status is Waiting (0) and the current timestamp is
    strictly greater than created_at + 3600; when approved it pays
    wager - 1000 to player1, once, and leaves every field of the record
    unchanged (status stays Waiting). *)
Theorem cancel_refunds_player1_and_keeps_record e r :
  routes "cancel" e →
  approved (execute server e (store r)) = true →
  sender e = player1 r
  ∧ status r = 0
  ∧ latest_timestamp e > created_at r + 3600
  ∧ transfers (execute server e (store r)) = [payment (player1 r) (wager r - 1000)]
  ∧ committed (execute server e (store r)) = store r.
Proof.
  intros Hr. rewrite (execute_method _ _ _ _ Hr).
  unfold method_outcome. rewrite !decide_False, !decide_True by done.
  destruct (cancel_pre e r) eqn:Hpre; [|done]. intros _.
  unfold cancel_pre in Hpre.
  rewrite !andb_true_iff, !bool_decide_eq_true in Hpre.
  destruct_and!. by split_and!.
Qed.

(** C3 (amended): the creating call checks nothing about the wager: it
    stores the value of any argument of at most 8 bytes, 0 included,
    whenever the game id fits in the store (the ledger holds a key and
    its value only up to 128 bytes together); and no call to the
    existing application changes the stored wager. *)
Theorem create_stores_any_wager_and_calls_keep_it :
  (∀ e a gid w,
     application_id e = 0 →
     on_completion e ≠ ClearState →
     application_args e !! 0%nat = Some a →
     application_args e !! 1%nat = Some gid →
     (String.length game_id_key + String.length gid ≤ 128)%nat →
     btoi a = Some w →
     execute server e ∅ = accepted (store (create_post e w gid)) []
     ∧ wager (create_post e w gid) = w)
  ∧ (∀ e r,
       application_id e ≠ 0 →
       committed (execute server e (store r)) !! wager_key = Some (Uint (wager r))).
Proof.
  split.
  - intros e a gid w Hid Hoc Ha Hg _ Hw. split; [|done].
    by eapply execute_create.
  - intros e r Hid. rewrite execute_call by done.
    destruct (call_outcome_record server e r)
      as (r' & -> & _ & <- & _).
    done.
Qed.

End Lifecycle.

(** * How calls change the record *)

Section Transitions.

Variable server : string.

Lemma store_inj r r' : store r = store r' → r = r'.
Proof.
  intros H.
  assert (∀ k, store r !! k = store r' !! k) as Hk by (by rewrite H).
  pose proof (Hk player1_key) as H1. pose proof (Hk player2_key) as H2.
  pose proof (Hk wager_key) as H3. pose proof (Hk game_id_key) as H4.
  pose proof (Hk winner_key) as H5. pose proof (Hk status_key) as H6.
  pose proof (Hk created_at_key) as H7. pose proof (Hk last_move_key) as H8.
  vm_compute in H1, H2, H3, H4, H5, H6, H7, H8.
  destruct r, r'. simpl in *. congruence.
Qed.

Lemma call_outcome_transition e r :
  application_id e ≠ 0 →
  ∃ r', committed (call_outcome server e r) = store r' ∧ transition server e r r'.
Proof.
  intros Hid.
  assert (∃ r', store r = store r' ∧ transition server e r r') as Hsame
    by (exists r; split; [done|by left]).
  unfold call_outcome.
  destruct (on_completion e) eqn:Hoc; try done; try (by case_bool_decide).
  destruct (application_args e !! 0%nat) as [op|] eqn:Hop; [|done].
  assert (routes op e) as Hr by done.
  unfold method_outcome.
  repeat case_decide; subst; try done; try (by case_match).
  - destruct (join_pre e r) eqn:Hpre; [|done].
    exists (join_post e r). split; [done|]. right; left. done.
  - destruct (declare_winner_pre server e r) eqn:Hpre; [|done].
    eexists. split; [done|]. right; right; left. split_and!; [done..|].
    unfold declare_winner_pre in Hpre.
    destruct (application_args e !! 1%nat) as [p|];
      [by exists p|by rewrite andb_false_r in Hpre].
  - destruct (timeout_claim_pre e r) eqn:Hpre; [|done].
    eexists. split; [done|]. do 3 right. left. done.
  - destruct (update_move_pre server e r) eqn:Hpre; [|done].
    eexists. split; [done|]. do 4 right. done.
Qed.
End Transitions.

(** * Decoding the wager *)

Lemma btoi_acc_bounds s acc :
  0 ≤ acc →
  acc * 256 ^ Z.of_nat (String.length s) ≤ btoi_acc acc s
  ∧ btoi_acc acc s < (acc + 1) * 256 ^ Z.of_nat (String.length s).
Proof.
  revert acc. induction s as [|c s IH]; intros acc Hacc.
  - simpl. lia.
  - cbn [btoi_acc String.length].
    pose proof (N_ascii_bounded c) as Hc.
    destruct (IH (acc * 256 + Z.of_N (N_of_ascii c))) as [Hlo Hhi]; [lia|].
    rewrite Nat2Z.inj_succ, Z.pow_succ_r by lia.
    assert (0 < 256 ^ Z.of_nat (String.length s)) by (apply Z.pow_pos_nonneg; lia).
    nia.
Qed.

Lemma btoi_bounded s n : btoi s = Some n → 0 ≤ n ≤ uint64_max.
Proof.
  unfold btoi. case_decide as Hlen; [|done]. intros [= <-].
  destruct (btoi_acc_bounds s 0) as [Hlo Hhi]; [done|].
  assert (256 ^ Z.of_nat (String.length s) ≤ 256 ^ 8)
    by (apply Z.pow_le_mono_r; lia).
  unfold uint64_max. change (256 ^ 8) with (2 ^ 64) in *. lia.
Qed.

Lemma itob_acc_length k n s :
  String.length (itob_acc k n s) = (k + String.length s)%nat.
Proof.
  revert n s. induction k as [|k IH]; intros n s; [done|].
  cbn [itob_acc]. rewrite IH. simpl. lia.
Qed.

Lemma btoi_acc_itob_acc k n s a :
  0 ≤ n →
  btoi_acc a (itob_acc k n s)
  = btoi_acc (a * 256 ^ Z.of_nat k + n mod 256 ^ Z.of_nat k) s.
Proof.
  revert n s. induction k as [|k IH]; intros n s Hn.
  - simpl. rewrite Z.mod_1_r. f_equal. lia.
  - cbn [itob_acc]. rewrite IH by (apply Z.div_pos; lia).
    cbn [btoi_acc]. f_equal.
    rewrite N_ascii_embedding.
    2:{ change 256%N with (Z.to_N 256). apply Z2N.inj_lt; try lia.
        - apply Z.mod_pos_bound; lia.
        - apply Z.mod_pos_bound; lia. }
    rewrite Z2N.id by (apply Z.mod_pos_bound; lia).
    rewrite Nat2Z.inj_succ, Z.pow_succ_r by lia.
    rewrite (Z.rem_mul_r n 256 (256 ^ Z.of_nat k)) by lia.
    lia.
Qed.

(** [Btoi] reads back every uint64 from its 8-byte big-endian form: the
    wager a client encodes is the wager the creating call stores. *)
Theorem btoi_inverts_big_endian_encoding n :
  0 ≤ n ≤ uint64_max → btoi (itob n) = Some n.
Proof.
  intros Hn. unfold btoi, itob.
  rewrite decide_True by (rewrite itob_acc_length; simpl; lia).
  rewrite (btoi_acc_itob_acc 8 n EmptyString 0) by lia.
  cbn [btoi_acc]. f_equal.
  change (256 ^ Z.of_nat 8) with (2 ^ 64).
  rewrite Z.mod_small; [lia|]. unfold uint64_max in Hn. lia.
Qed.

Section Routing.

Variable server : string.

(** The creating call is approved only when it has a first argument of
    at most 8 bytes and a second argument; it then writes the whole
    record, with a uint64 wager and status Waiting, and pays nothing,
    and when it is not approved the store stays empty.  With such
    arguments and a game id that fits in the store (key and value of
    at most 128 bytes together) it is approved.  It looks at no
    transaction of its group: no deposit is asked for at creation. *)
Theorem create_needs_two_arguments_and_no_payment e :
  application_id e = 0 →
  on_completion e ≠ ClearState →
  (approved (execute server e ∅) = true →
   ∃ a gid w, application_args e !! 0%nat = Some a
              ∧ application_args e !! 1%nat = Some gid
              ∧ (String.length a ≤ 8)%nat
              ∧ btoi a = Some w
              ∧ 0 ≤ w ≤ uint64_max
              ∧ committed (execute server e ∅) = store (create_post e w gid)
              ∧ transfers (execute server e ∅) = [])
  ∧ (∀ a gid, application_args e !! 0%nat = Some a →
              application_args e !! 1%nat = Some gid →
              (String.length a ≤ 8)%nat →
              (String.length game_id_key + String.length gid ≤ 128)%nat →
              approved (execute server e ∅) = true)
  ∧ (approved (execute server e ∅) = false →
     committed (execute server e ∅) = ∅)
  ∧ (∀ grp, approved (execute server (with_group grp e) ∅)
            = approved (execute server e ∅)).
Proof.
  intros Hid Hoc. split_and!.
  - rewrite execute_create_cases by done.
    destruct (application_args e !! 0%nat) as [a|]; [|done].
    destruct (application_args e !! 1%nat) as [gid|]; [|done].
    destruct (btoi a) as [w|] eqn:Hw; [|done]. intros _.
    exists a, gid, w. split_and!; try done; try by eapply btoi_bounded.
    unfold btoi in Hw. by case_decide.
  - intros a gid Ha Hg Hlen _. rewrite execute_create_cases by done.
    rewrite Ha, Hg. unfold btoi. by rewrite decide_True.
  - rewrite execute_create_cases by done.
    by repeat case_match.
  - intros grp. by rewrite !execute_create_cases.
Qed.

(** A DeleteApplication or UpdateApplication call is approved exactly
    when its sender is the application's creator, whatever its
    arguments; the program itself changes no key and pays nothing. *)
Theorem delete_and_update_are_for_the_creator e r :
  application_id e ≠ 0 →
  on_completion e = DeleteApplication ∨ on_completion e = UpdateApplication →
  (approved (execute server e (store r)) = true
   ↔ sender e = creator_address e)
  ∧ committed (execute server e (store r)) = store r
  ∧ transfers (execute server e (store r)) = [].
Proof.
  intros Hid Hoc. rewrite execute_call by done. unfold call_outcome.
  destruct Hoc as [-> | ->]; case_bool_decide; simpl; by split_and!.
Qed.

(** An OptIn, CloseOut or ClearState call is approved for every sender
    and every argument list, changes no key and pays nothing. *)
Theorem opt_in_close_out_clear_state_change_nothing e r :
  application_id e ≠ 0 →
  on_completion e = OptIn ∨ on_completion e = CloseOut
  ∨ on_completion e = ClearState →
  execute server e (store r) = accepted (store r) [].
Proof.
  intros Hid Hoc. rewrite execute_call by done. unfold call_outcome.
  by destruct Hoc as [-> | [-> | ->]].
Qed.

(** The clear program approves on any store. *)
Lemma clear_state_program_always_approves e g :
  on_completion e = ClearState → execute server e g = accepted g [].
Proof. intros Hoc. unfold execute. by rewrite Hoc. Qed.

(** A NoOp call with no argument, or whose first argument is none of
    the seven method names, is rejected: [Cond] has no branch for it. *)
Theorem unknown_method_is_rejected e r :
  application_id e ≠ 0 →
  on_completion e = NoOp →
  (∀ op, application_args e !! 0%nat = Some op →
         op ∉ ["join"; "deposit"; "declare_winner"; "claim"; "cancel";
               "timeout_claim"; "update_move"]%string) →
  execute server e (store r) = rejected (store r).
Proof.
  intros Hid Hoc Hop. rewrite execute_call by done. unfold call_outcome.
  rewrite Hoc.
  destruct (application_args e !! 0%nat) as [op|]; [|done].
  specialize (Hop op eq_refl). unfold method_outcome.
  repeat case_decide; try done; subst; exfalso; apply Hop; set_solver.
Qed.

(** The program reads the type, receiver and amount of the second
    transaction of the group and nothing else of the group: two groups
    that agree on these give the same outcome, whoever sent the
    payment. *)
Theorem paired_payment_sender_is_not_checked e r grp t t' :
  application_id e ≠ 0 →
  group e !! 1%nat = Some t →
  grp !! 1%nat = Some t' →
  gtxn_type_enum t' = gtxn_type_enum t →
  gtxn_receiver t' = gtxn_receiver t →
  gtxn_amount t' = gtxn_amount t →
  execute server (with_group grp e) (store r) = execute server e (store r).
Proof.
  intros Hid Ht Ht' Hty Hrc Ham. rewrite !execute_call by done.
  assert (∀ a, paired_payment (with_group grp e) a = paired_payment e a)
    as Hpp.
  { intros a. unfold paired_payment. simpl. by rewrite Ht, Ht', Hty, Hrc, Ham. }
  unfold call_outcome, method_outcome, join_pre, deposit_pre. simpl.
  by rewrite !Hpp.
Qed.

End Routing.

Section Invariants.

Variable server : string.

Lemma transition_invariant creator e r r' :
  record_invariant creator r → transition server e r r' →
  record_invariant creator r'.
Proof.
  intros (Hp1 & Hw & Hst) Ht.
  destruct Ht as [->|[(_ & Hpre & ->)|[(_ & Hpre & p & Hp & ->)
                 |[(_ & Hpre & ->)|(_ & Hpre & ->)]]]]; [done|..];
    (split; [done|split; [done|]]); simpl.
  - unfold join_pre in Hpre.
    rewrite !andb_true_iff, !bool_decide_eq_true in Hpre.
    destruct Hpre as (((Hs & Hne) & _) & _).
    right; left.
    destruct Hst as [(_ & _ & ?)|[(? & _)|(? & _)]]; [done|lia..].
  - unfold declare_winner_pre in Hpre. rewrite Hp in Hpre.
    rewrite !andb_true_iff, orb_true_iff, !bool_decide_eq_true in Hpre.
    destruct Hpre as ((_ & Hs) & Hwin).
    right; right.
    destruct Hst as [(? & _)|[(_ & ? & _)|(? & _)]]; [lia|done|lia].
  - unfold timeout_claim_pre in Hpre.
    rewrite !andb_true_iff, orb_true_iff, !bool_decide_eq_true in Hpre.
    destruct Hpre as ((((Hs & Hwin) & _) & _) & _).
    right; right.
    destruct Hst as [(? & _)|[(_ & ? & _)|(? & _)]]; [lia|done|lia].
  - done.
Qed.

(** Every store reachable from a creating call holds a record whose
    player1 is the creator and whose wager is a uint64; while the
    status is Waiting (0) player2 and winner are the zero address,
    from Active (1) on player2 differs from player1, the winner stays
    the zero address until the status is Complete (2), and then it is
    player1 or player2. *)
Theorem reachable_records_are_well_formed creator app g :
  reachable server creator app g →
  ∃ r, g = store r ∧ record_invariant creator r.
Proof.
  induction 1 as [e Hid Hoc Hs Hc Ha Happ|e g Hg IH Hid Hc Ha Happ].
  - rewrite execute_create_cases in * by done.
    destruct (application_args e !! 0%nat) as [a|]; [|done].
    destruct (application_args e !! 1%nat) as [gid|]; [|done].
    destruct (btoi a) as [w|] eqn:Hw; [|done].
    exists (create_post e w gid). split; [done|].
    split_and!; [done|by eapply btoi_bounded..|by left].
  - destruct IH as (r & -> & Hinv).
    rewrite execute_call by done.
    destruct (call_outcome_transition server e r Hid) as (r' & -> & Ht).
    exists r'. split; [done|]. by eapply transition_invariant.
Qed.

(** Every inner transaction a call carries out on a reachable record is
    a payment with fee 0 to player1 or to player2. *)
Theorem payments_go_to_a_player creator app r e t :
  reachable server creator app (store r) →
  application_id e ≠ 0 →
  t ∈ transfers (execute server e (store r)) →
  itxn_type_enum t = Payment
  ∧ itxn_fee t = 0
  ∧ (itxn_receiver t = player1 r ∨ itxn_receiver t = player2 r).
Proof.
  intros Hg Hid.
  destruct (reachable_records_are_well_formed _ _ _ Hg)
    as (r0 & Heq%store_inj & Hinv). subst r0.
  destruct Hinv as (_ & _ & Hst).
  rewrite execute_call by done. unfold call_outcome.
  destruct (on_completion e);
    try (by intros ?%elem_of_nil);
    try (case_bool_decide; by intros ?%elem_of_nil).
  destruct (application_args e !! 0%nat) as [op|];
    [|by intros ?%elem_of_nil].
  unfold method_outcome.
  repeat case_decide;
    try (by intros ?%elem_of_nil);
    try (case_match; by intros ?%elem_of_nil).
  - destruct (claim_pre e r) eqn:Hpre; [|by intros ?%elem_of_nil].
    intros ->%list_elem_of_singleton. simpl. split_and!; [done..|].
    unfold claim_pre in Hpre.
    rewrite !andb_true_iff, !bool_decide_eq_true in Hpre.
    destruct Hpre as ((Hs & Hw) & _). rewrite Hw.
    destruct Hst as [(? & _)|[(? & _)|(_ & _ & ?)]]; [lia..|done].
  - destruct (cancel_pre e r); [|by intros ?%elem_of_nil].
    intros ->%list_elem_of_singleton. simpl. split_and!; [done..|by left].
  - destruct (timeout_claim_pre e r) eqn:Hpre; [|by intros ?%elem_of_nil].
    intros ->%list_elem_of_singleton. simpl. split_and!; [done..|].
    unfold timeout_claim_pre in Hpre.
    rewrite !andb_true_iff, orb_true_iff, !bool_decide_eq_true in Hpre.
    tauto.
Qed.

(** Calls to the existing application never change player1, wager,
    game_id or created_at, never lower the status, never change
    player2 once the status has left Waiting, and change nothing at all
    once the status is Complete. *)
Lemma transition_frame e r r' :
  transition server e r r' →
  player1 r' = player1 r ∧ wager r' = wager r ∧ game_id r' = game_id r
  ∧ created_at r' = created_at r
  ∧ status r ≤ status r'
  ∧ (status r ≠ 0 → status r' ≠ 0 ∧ player2 r' = player2 r)
  ∧ (status r = 2 → r' = r).
Proof.
  intros [->|[(_ & Hpre & ->)|[(_ & Hpre & p & Hp & ->)
         |[(_ & Hpre & ->)|(_ & Hpre & ->)]]]]; simpl.
  - by split_and!.
  - unfold join_pre in Hpre.
    rewrite !andb_true_iff, !bool_decide_eq_true in Hpre.
    split_and!; try done; lia.
  - unfold declare_winner_pre in Hpre.
    rewrite !andb_true_iff, !bool_decide_eq_true in Hpre.
    split_and!; try done; lia.
  - unfold timeout_claim_pre in Hpre.
    rewrite !andb_true_iff, !bool_decide_eq_true in Hpre.
    split_and!; try done; lia.
  - unfold update_move_pre in Hpre.
    rewrite !andb_true_iff, !bool_decide_eq_true in Hpre.
    split_and!; try done; lia.
Qed.

Theorem calls_keep_players_wager_and_game_id calls r :
  Forall (λ e, application_id e ≠ 0) calls →
  ∃ r', (run server calls (store r)).1 = store r'
        ∧ player1 r' = player1 r ∧ wager r' = wager r
        ∧ game_id r' = game_id r ∧ created_at r' = created_at r
        ∧ status r ≤ status r'
        ∧ (status r ≠ 0 → status r' ≠ 0 ∧ player2 r' = player2 r)
        ∧ (status r = 2 → r' = r).
Proof.
  intros Hcalls. revert r.
  induction Hcalls as [|e calls Hid _ IH]; intros r.
  - exists r. by split_and!.
  - cbn [run]. rewrite execute_call by done.
    destruct (call_outcome_transition server e r Hid) as (r1 & -> & Ht).
    destruct (transition_frame _ _ _ Ht) as (? & ? & ? & ? & ? & Hp2 & Hfz).
    destruct (IH r1) as (r' & Hrun & ? & ? & ? & ? & ? & Hp2' & Hfz').
    destruct (run server calls (store r1)) as [g' ts]. simpl in *.
    exists r'. split_and!; try congruence; try lia.
    + intros Hs. destruct (Hp2 Hs) as [Hs1 E1].
      destruct (Hp2' Hs1) as [Hs2 E2]. split; congruence.
    + intros Hs. rewrite Hfz' by (rewrite Hfz; done). by apply Hfz.
Qed.

(** After an approved join, every later join is rejected, whatever
    calls come in between. *)
Theorem game_is_joined_at_most_once j calls j' r :
  routes "join" j →
  approved (execute server j (store r)) = true →
  Forall (λ e, application_id e ≠ 0) calls →
  routes "join" j' →
  approved (execute server j'
              (run server calls (committed (execute server j (store r)))).1)
  = false.
Proof.
  intros Hj Happ Hcalls Hj'.
  rewrite (execute_method _ _ _ _ Hj) in *.
  unfold method_outcome in Happ |- *. rewrite decide_True in * by done.
  destruct (join_pre j r); [|done]. cbn [committed accepted].
  destruct (calls_keep_players_wager_and_game_id calls (join_post j r) Hcalls)
    as (r' & -> & _ & _ & _ & _ & Hs & _ & _).
  rewrite (execute_method _ _ _ _ Hj'). unfold method_outcome.
  rewrite decide_True by done.
  assert (join_pre j' r' = false) as ->; [|done].
  unfold join_pre. simpl in Hs.
  by rewrite (bool_decide_eq_false_2 (status r' = 0)) by lia.
Qed.

End Invariants.

Section Methods.

Variable server : string.

Lemma server_or_creator_iff e :
  server_or_creator server e = true
  ↔ sender e = server ∨ sender e = creator_address e.
Proof.
  unfold server_or_creator. by rewrite orb_true_iff, !bool_decide_eq_true.
Qed.

Lemma pot_computable_iff w :
  pot_computable w = true ↔ 1000 ≤ 2 * w ≤ uint64_max.
Proof.
  unfold pot_computable. rewrite andb_true_iff, !bool_decide_eq_true. lia.
Qed.

(** An update_move call is approved exactly when the sender is the game
    server or the creator and the status is Active (1); it then sets
    last_move to the current timestamp, changes nothing else and pays
    nothing. *)
Theorem update_move_is_for_server_or_creator e r :
  routes "update_move" e →
  (approved (execute server e (store r)) = true
   ↔ (sender e = server ∨ sender e = creator_address e) ∧ status r = 1)
  ∧ (approved (execute server e (store r)) = true →
     committed (execute server e (store r)) = store (update_move_post e r)
     ∧ transfers (execute server e (store r)) = []).
Proof.
  intros Hr. rewrite (execute_method _ _ _ _ Hr).
  unfold method_outcome. rewrite !decide_False, !decide_True by done.
  destruct (update_move_pre server e r) eqn:Hpre; simpl.
  - unfold update_move_pre in Hpre.
    rewrite andb_true_iff, server_or_creator_iff, bool_decide_eq_true in Hpre.
    by split_and!.
  - split; [|done]. split; [done|]. intros [Hs Hst].
    unfold update_move_pre in Hpre. apply server_or_creator_iff in Hs.
    by rewrite Hs, bool_decide_eq_true_2 in Hpre.
Qed.

(** A cancel call is approved only when the sender is player1, the
    status is Waiting (0), created_at + 3600 is a uint64, the current
    timestamp is strictly greater than it and the wager is at least
    1000.  At created_at + 3600 itself the call is rejected, and a
    wager below 1000 is never refunded: wager - 1000 underflows. *)
Theorem cancel_needs_elapsed_timeout_and_wager_of_1000 e r :
  routes "cancel" e →
  (approved (execute server e (store r)) = true →
   sender e = player1 r ∧ status r = 0
   ∧ created_at r + 3600 ≤ uint64_max
   ∧ latest_timestamp e > created_at r + 3600
   ∧ 1000 ≤ wager r)
  ∧ (latest_timestamp e ≤ created_at r + 3600 →
     execute server e (store r) = rejected (store r))
  ∧ (wager r < 1000 → execute server e (store r) = rejected (store r)).
Proof.
  intros Hr. rewrite (execute_method _ _ _ _ Hr).
  unfold method_outcome. rewrite !decide_False, !decide_True by done.
  assert (cancel_pre e r = true
          → sender e = player1 r ∧ status r = 0
            ∧ created_at r + 3600 ≤ uint64_max
            ∧ latest_timestamp e > created_at r + 3600
            ∧ 1000 ≤ wager r) as Hpre.
  { unfold cancel_pre. rewrite !andb_true_iff, !bool_decide_eq_true. tauto. }
  split_and!.
  - by destruct (cancel_pre e r).
  - intros Hle. destruct (cancel_pre e r); [|done].
    specialize (Hpre eq_refl). lia.
  - intros Hlt. destruct (cancel_pre e r); [|done].
    specialize (Hpre eq_refl). lia.
Qed.

(** A timeout_claim call is approved only when the status is
    Active (1), the sender is player1 or player2, last_move + 259200 is
    a uint64, the current timestamp is strictly greater than it and
    2 * wager - 1000 is a uint64.  At last_move + 259200 itself the
    call is rejected, and a pot below 1000 is never paid out:
    2 * wager - 1000 underflows. *)
Theorem timeout_claim_needs_elapsed_timeout_and_payable_pot e r :
  routes "timeout_claim" e →
  (approved (execute server e (store r)) = true →
   status r = 1
   ∧ (sender e = player1 r ∨ sender e = player2 r)
   ∧ last_move r + 259200 ≤ uint64_max
   ∧ latest_timestamp e > last_move r + 259200
   ∧ 1000 ≤ 2 * wager r ≤ uint64_max)
  ∧ (latest_timestamp e ≤ last_move r + 259200 →
     execute server e (store r) = rejected (store r))
  ∧ (2 * wager r < 1000 → execute server e (store r) = rejected (store r)).
Proof.
  intros Hr. rewrite (execute_method _ _ _ _ Hr).
  unfold method_outcome. rewrite !decide_False, !decide_True by done.
  assert (timeout_claim_pre e r = true
          → status r = 1
            ∧ (sender e = player1 r ∨ sender e = player2 r)
            ∧ last_move r + 259200 ≤ uint64_max
            ∧ latest_timestamp e > last_move r + 259200
            ∧ 1000 ≤ 2 * wager r ≤ uint64_max) as Hpre.
  { unfold timeout_claim_pre.
    rewrite !andb_true_iff, orb_true_iff, !bool_decide_eq_true,
      pot_computable_iff. tauto. }
  split_and!.
  - by destruct (timeout_claim_pre e r).
  - intros Hle. destruct (timeout_claim_pre e r); [|done].
    specialize (Hpre eq_refl). lia.
  - intros Hlt. destruct (timeout_claim_pre e r); [|done].
    specialize (Hpre eq_refl). lia.
Qed.

(** With a wager below 500 the pot 2 * wager is below the reserve of
    1000: no sequence of calls to the application pays anything out. *)
Lemma no_payout_below_500 e r :
  application_id e ≠ 0 → 2 * wager r < 1000 →
  transfers (call_outcome server e r) = [].
Proof.
  intros Hid Hw. unfold call_outcome, method_outcome.
  assert (claim_pre e r = false) as ->.
  { unfold claim_pre, pot_computable.
    rewrite (bool_decide_eq_false_2 (1000 ≤ _)) by lia.
    by rewrite !andb_false_r. }
  assert (timeout_claim_pre e r = false) as ->.
  { unfold timeout_claim_pre, pot_computable.
    rewrite (bool_decide_eq_false_2 (1000 ≤ wager r * 2)) by lia.
    by rewrite !andb_false_r. }
  assert (cancel_pre e r = false) as ->.
  { unfold cancel_pre.
    rewrite (bool_decide_eq_false_2 (1000 ≤ wager r)) by lia.
    by rewrite !andb_false_r. }
  repeat case_match; done.
Qed.

Theorem wager_below_500_is_never_paid_out calls r :
  Forall (λ e, application_id e ≠ 0) calls →
  2 * wager r < 1000 →
  (run server calls (store r)).2 = [].
Proof.
  intros Hcalls. revert r.
  induction Hcalls as [|e calls Hid _ IH]; intros r Hw; [done|].
  cbn [run]. rewrite execute_call by done.
  rewrite no_payout_below_500 by done.
  destruct (call_outcome_transition server e r Hid) as (r1 & -> & Ht).
  destruct (transition_frame _ _ _ _ Ht) as (_ & Hw1 & _).
  specialize (IH r1). rewrite Hw1 in IH. specialize (IH Hw).
  by destruct (run server calls (store r1)).
Qed.

(** On a reachable Active record the creator, who is player1, can
    declare itself the winner without the game server. *)
Theorem creator_can_declare_itself_winner creator app r e :
  reachable server creator app (store r) →
  status r = 1 →
  routes "declare_winner" e →
  sender e = creator →
  creator_address e = creator →
  application_args e !! 1%nat = Some creator →
  execute server e (store r)
  = accepted (store (declare_winner_post creator r)) []
  ∧ player1 r = creator.
Proof.
  intros Hg Hst Hr Hs Hc Ha.
  destruct (reachable_records_are_well_formed _ _ _ _ Hg)
    as (r0 & Heq%store_inj & Hp1 & _). subst r0.
  split; [|done].
  rewrite (execute_method _ _ _ _ Hr).
  unfold method_outcome. rewrite !decide_False, !decide_True by done.
  assert (declare_winner_pre server e r = true) as ->.
  { unfold declare_winner_pre, server_or_creator. rewrite Ha, Hs, Hc, Hp1.
    rewrite !(bool_decide_eq_true_2 (creator = creator)) by done.
    rewrite (bool_decide_eq_true_2 _ Hst). by rewrite orb_true_r. }
  by rewrite Ha.
Qed.

(** On a reachable record, a sender that is neither the creator, the
    game server nor player2 can do one thing: join.  Any other call it
    makes changes no key and pays nothing. *)
Theorem outsider_can_only_join creator app r e :
  reachable server creator app (store r) →
  application_id e ≠ 0 →
  creator_address e = creator →
  sender e ≠ creator → sender e ≠ server → sender e ≠ player2 r →
  routes "join" e
  ∨ (committed (execute server e (store r)) = store r
     ∧ transfers (execute server e (store r)) = []).
Proof.
  intros Hg Hid Hc Hn1 Hns Hn2.
  destruct (reachable_records_are_well_formed _ _ _ _ Hg)
    as (r0 & Heq%store_inj & Hp1 & _ & Hst). subst r0.
  rewrite execute_call by done. unfold call_outcome.
  destruct (on_completion e) eqn:Hoc;
    try (right; done); try (right; by case_bool_decide).
  destruct (application_args e !! 0%nat) as [op|] eqn:Hop; [|by right].
  unfold method_outcome.
  destruct (decide (op = "join")) as [->|]; [by left|right].
  assert (server_or_creator server e = false) as Hsc.
  { unfold server_or_creator. rewrite Hc.
    by rewrite !bool_decide_eq_false_2. }
  assert (claim_pre e r = false) as Hcl.
  { unfold claim_pre.
    destruct (bool_decide (status r = 2)) eqn:Hs2; [|done].
    apply bool_decide_eq_true in Hs2.
    rewrite (bool_decide_eq_false_2 (sender e = winner r)); [done|].
    destruct Hst as [(? & _)|[(? & _)|(_ & _ & [Hw|Hw])]];
      [lia..|congruence|congruence]. }
  assert (timeout_claim_pre e r = false) as Hto.
  { unfold timeout_claim_pre.
    rewrite (bool_decide_eq_false_2 (sender e = player1 r)) by congruence.
    rewrite (bool_decide_eq_false_2 (sender e = player2 r)) by done.
    by rewrite andb_false_r. }
  unfold deposit_pre, declare_winner_pre, cancel_pre, update_move_pre.
  rewrite Hsc, Hcl, Hto.
  rewrite !(bool_decide_eq_false_2 (sender e = player1 r)) by congruence.
  simpl. repeat case_decide; done.
Qed.

End Methods.

Section Uninitialised.

Variable server : string.

Lemma eval_App_globalGet_missing e m key :
  globals m !! key = None → App_globalGet key e m = Some (Uint 0, m).
Proof.
  intros H. unfold App_globalGet, mbind, M_bind, bind, get, mret, M_ret, ret.
  by rewrite H.
Qed.

Lemma fail_Eq_bytes_uint e m x y s n :
  x e m = Some (Bytes s, m) → y e m = Some (Uint n, m) → Eq x y e m = None.
Proof.
  intros Hx Hy. unfold Eq.
  by rewrite (bind_Some _ _ _ _ _ _ Hx), (bind_Some _ _ _ _ _ _ Hy).
Qed.

Lemma fail_Neq_bytes_uint e m x y s n :
  x e m = Some (Bytes s, m) → y e m = Some (Uint n, m) → Neq x y e m = None.
Proof.
  intros Hx Hy. unfold Neq.
  by rewrite (bind_Some _ _ _ _ _ _ Hx), (bind_Some _ _ _ _ _ _ Hy).
Qed.

(** On a store where no key was ever written (every key reads as
    uint64 0), each NoOp call is rejected. *)
Theorem method_call_on_empty_store_is_rejected e :
  application_id e ≠ 0 →
  on_completion e = NoOp →
  execute server e ∅ = rejected ∅.
Proof.
  intros Hid Hoc. rewrite execute_approval by (by rewrite Hoc).
  assert (∀ key, App_globalGet key e (start ∅) = Some (Uint 0, start ∅))
    as Hget by (intros; by apply eval_App_globalGet_missing).
  unfold_routing. do 5 cond_skip.
  destruct (application_args e !! 0%nat) as [op|] eqn:Hop.
  2:{ rewrite fail_Cond; [done|].
      by apply fail_Eq_l, fail_Txn_application_args. }
  repeat (erewrite run_Cond by teal_eval;
          rewrite (bool_decide_decide (op = _));
          destruct (decide (op = _)) as [->|?]).
  - unfold on_join, STATUS_WAITING.
    erewrite run_Assert by (eapply eval_Eq_uint; [apply Hget|apply eval_Int]).
    rewrite bool_decide_eq_true_2 by done.
    rewrite fail_Assert; [done|].
    eapply fail_Neq_bytes_uint; [apply eval_Txn_sender|apply Hget].
  - unfold on_deposit.
    rewrite fail_Assert; [done|].
    eapply fail_Eq_bytes_uint; [apply eval_Txn_sender|apply Hget].
  - unfold on_declare_winner, GAME_SERVER, STATUS_ACTIVE.
    erewrite run_Assert by teal_eval.
    erewrite run_Assert by (eapply eval_Eq_uint; [apply Hget|apply eval_Int]).
    rewrite (bool_decide_eq_false_2 (0 = 1)) by done. by destruct (_ || _).
  - unfold on_claim, STATUS_COMPLETE.
    erewrite run_Assert by (eapply eval_Eq_uint; [apply Hget|apply eval_Int]).
    by rewrite bool_decide_eq_false_2.
  - unfold on_cancel.
    rewrite fail_Assert; [done|].
    eapply fail_Eq_bytes_uint; [apply eval_Txn_sender|apply Hget].
  - unfold on_timeout_claim, STATUS_ACTIVE.
    erewrite run_Assert by (eapply eval_Eq_uint; [apply Hget|apply eval_Int]).
    by rewrite bool_decide_eq_false_2.
  - unfold on_update_move, GAME_SERVER, STATUS_ACTIVE.
    erewrite run_Assert by teal_eval.
    erewrite run_Assert by (eapply eval_Eq_uint; [apply Hget|apply eval_Int]).
    rewrite (bool_decide_eq_false_2 (0 = 1)) by done. by destruct (_ || _).
  - done.
Qed.

End Uninitialised.

(** * Whole games *)

Section Games.

Variables (server creator joiner escrow gid : string).

#[local] Abbreviation creation := (Play.creation creator escrow gid).
#[local] Abbreviation method := (Play.method creator escrow).
#[local] Abbreviation game := (Play.game creator gid).

Lemma run_cons e calls g :
  run server (e :: calls) g
  = ((run server calls (committed (execute server e g))).1,
     transfers (execute server e g)
     ++ (run server calls (committed (execute server e g))).2).
Proof. cbn [run]. by destruct (run server calls _). Qed.

Lemma all_approved_cons e calls g :
  all_approved server (e :: calls) g
  = approved (execute server e g)
    && all_approved server calls (committed (execute server e g)).
Proof. done. Qed.

#[local] Ltac decide_checks :=
  repeat case_bool_decide; simpl;
  first [reflexivity | congruence | lia | tauto].

Lemma routes_method who op args paid now :
  routes op (method who (op :: args) paid now).
Proof. by repeat split. Qed.

Lemma execute_creation w t0 :
  0 ≤ w ≤ uint64_max →
  execute server (creation w t0) ∅
  = accepted (store (game w t0 zero_address zero_address 0 t0)) [].
Proof.
  intros Hw.
  apply (execute_create server (creation w t0) (itob w) gid w).
  - reflexivity.
  - discriminate.
  - reflexivity.
  - reflexivity.
  - by apply btoi_inverts_big_endian_encoding.
Qed.

Lemma execute_deposit w t0 p2 win st moved now :
  execute server (method creator ["deposit"%string] (Some w) now)
    (store (game w t0 p2 win st moved))
  = accepted (store (game w t0 p2 win st moved)) [].
Proof.
  rewrite (execute_method server _ _ "deposit") by apply routes_method.
  unfold method_outcome. rewrite decide_False, decide_True by done.
  assert (deposit_pre (method creator ["deposit"%string] (Some w) now)
            (game w t0 p2 win st moved) = true) as ->; [|done].
  unfold deposit_pre, paired_payment. cbn.
  by rewrite !bool_decide_eq_true_2.
Qed.

Lemma execute_join w t0 win moved now :
  execute server (method joiner ["join"%string] (Some w) now)
    (store (game w t0 zero_address win 0 moved))
  = if bool_decide (joiner ≠ creator)
    then accepted (store (game w t0 joiner win 1 now)) []
    else rejected (store (game w t0 zero_address win 0 moved)).
Proof.
  rewrite (execute_method server _ _ "join") by apply routes_method.
  unfold method_outcome. rewrite decide_True by done.
  assert (join_pre (method joiner ["join"%string] (Some w) now)
            (game w t0 zero_address win 0 moved)
          = bool_decide (joiner ≠ creator)) as ->; [|done].
  unfold join_pre, paired_payment. cbn. decide_checks.
Qed.

Lemma execute_declare_winner w t0 win moved now p :
  execute server (method server ["declare_winner"%string; p] None now)
    (store (game w t0 joiner win 1 moved))
  = if bool_decide (p = creator) || bool_decide (p = joiner)
    then accepted (store (game w t0 joiner p 2 moved)) []
    else rejected (store (game w t0 joiner win 1 moved)).
Proof.
  rewrite (execute_method server _ _ "declare_winner") by apply routes_method.
  unfold method_outcome. rewrite !decide_False, decide_True by done.
  assert (declare_winner_pre server
            (method server ["declare_winner"%string; p] None now)
            (game w t0 joiner win 1 moved)
          = bool_decide (p = creator) || bool_decide (p = joiner)) as ->;
    [|done].
  unfold declare_winner_pre, server_or_creator. cbn. decide_checks.
Qed.

Lemma execute_claim w t0 p2 win moved now :
  execute server (method win ["claim"%string] None now)
    (store (game w t0 p2 win 2 moved))
  = if pot_computable w
    then accepted (store (game w t0 p2 win 2 moved))
           [payment win (w * 2 - 1000)]
    else rejected (store (game w t0 p2 win 2 moved)).
Proof.
  rewrite (execute_method server _ _ "claim") by apply routes_method.
  unfold method_outcome. rewrite !decide_False, decide_True by done.
  assert (claim_pre (method win ["claim"%string] None now)
            (game w t0 p2 win 2 moved) = pot_computable w) as ->; [|done].
  unfold claim_pre, pot_computable. cbn. decide_checks.
Qed.

Lemma execute_timeout_claim w t0 p2 win moved now who :
  execute server (method who ["timeout_claim"%string] None now)
    (store (game w t0 p2 win 1 moved))
  = if (bool_decide (who = creator) || bool_decide (who = p2))
       && bool_decide (moved + 259200 ≤ uint64_max)
       && bool_decide (now > moved + 259200)
       && pot_computable w
    then accepted (store (game w t0 p2 who 2 moved))
           [payment who (w * 2 - 1000)]
    else rejected (store (game w t0 p2 win 1 moved)).
Proof.
  rewrite (execute_method server _ _ "timeout_claim") by apply routes_method.
  unfold method_outcome. rewrite !decide_False, decide_True by done.
  assert (timeout_claim_pre (method who ["timeout_claim"%string] None now)
            (game w t0 p2 win 1 moved)
          = (bool_decide (who = creator) || bool_decide (who = p2))
            && bool_decide (moved + 259200 ≤ uint64_max)
            && bool_decide (now > moved + 259200)
            && pot_computable w) as ->; [|done].
  unfold timeout_claim_pre, pot_computable. cbn. decide_checks.
Qed.

Lemma execute_cancel w t0 win moved now :
  execute server (method creator ["cancel"%string] None now)
    (store (game w t0 zero_address win 0 moved))
  = if bool_decide (t0 + 3600 ≤ uint64_max)
       && bool_decide (now > t0 + 3600)
       && bool_decide (1000 ≤ w)
    then accepted (store (game w t0 zero_address win 0 moved))
           [payment creator (w - 1000)]
    else rejected (store (game w t0 zero_address win 0 moved)).
Proof.
  rewrite (execute_method server _ _ "cancel") by apply routes_method.
  unfold method_outcome. rewrite !decide_False, decide_True by done.
  assert (cancel_pre (method creator ["cancel"%string] None now)
            (game w t0 zero_address win 0 moved)
          = bool_decide (t0 + 3600 ≤ uint64_max)
            && bool_decide (now > t0 + 3600)
            && bool_decide (1000 ≤ w)) as ->; [|done].
  unfold cancel_pre. cbn. decide_checks.
Qed.

(** A game played to the end.  The calls are create, deposit by the
    creator, join, declare_winner for [p] by the server and claim by
    [p], the game id fitting in the store beside its key.  Whenever all
    five are approved (which on the ledger also takes an escrow account
    able to make the payment), the record ends Complete with [p] as
    winner and the join time as last move, exactly one payment is made,
    2 * wager - 1000 to [p], the joiner is not the creator, [p] is one
    of the two players and the pot is at least 1000.  No timestamp
    matters. *)
Theorem played_game_pays_pot_to_declared_winner w p t0 t1 t2 t3 t4 :
  0 ≤ w ≤ uint64_max →
  (String.length game_id_key + String.length gid ≤ 128)%nat →
  all_approved server
    [creation w t0;
     method creator ["deposit"%string] (Some w) t1;
     method joiner ["join"%string] (Some w) t2;
     method server ["declare_winner"%string; p] None t3;
     method p ["claim"%string] None t4] ∅ = true →
  run server
    [creation w t0;
     method creator ["deposit"%string] (Some w) t1;
     method joiner ["join"%string] (Some w) t2;
     method server ["declare_winner"%string; p] None t3;
     method p ["claim"%string] None t4] ∅
  = (store (game w t0 joiner p 2 t2), [payment p (2 * w - 1000)])
  ∧ joiner ≠ creator
  ∧ (p = creator ∨ p = joiner)
  ∧ 1000 ≤ 2 * w.
Proof.
  intros Hw _ Hall.
  rewrite run_cons. rewrite all_approved_cons in Hall.
  rewrite execute_creation in * by done.
  cbn [approved committed transfers accepted andb] in *.
  rewrite run_cons. rewrite all_approved_cons in Hall.
  rewrite execute_deposit in *.
  cbn [approved committed transfers accepted andb] in *.
  rewrite run_cons. rewrite all_approved_cons in Hall.
  rewrite execute_join in *.
  destruct (bool_decide (joiner ≠ creator)) eqn:Hj; [|done].
  apply bool_decide_eq_true in Hj.
  cbn [approved committed transfers accepted andb] in *.
  rewrite run_cons. rewrite all_approved_cons in Hall.
  rewrite execute_declare_winner in *.
  destruct (bool_decide (p = creator) || bool_decide (p = joiner)) eqn:Hp;
    [|done].
  rewrite orb_true_iff, !bool_decide_eq_true in Hp.
  cbn [approved committed transfers accepted andb] in *.
  rewrite run_cons. rewrite all_approved_cons in Hall.
  rewrite execute_claim in *.
  destruct (pot_computable w) eqn:Hpot; [|done].
  apply pot_computable_iff in Hpot.
  cbn [run approved committed transfers accepted andb fst snd app].
  split_and!; [|done..|lia]. do 3 f_equal. lia.
Qed.

(** An abandoned game.  The calls are create, deposit by the creator,
    join and timeout_claim by [who], the game id fitting in the store
    beside its key.  Whenever all four are approved (which on the
    ledger also takes an escrow account able to make the payment), the
    record ends Complete with [who] as winner, exactly one payment is
    made, 2 * wager - 1000 to [who], the joiner is not the creator,
    [who] is one of the two players, the claim comes more than 259200
    after the join and the pot is at least 1000. *)
Theorem abandoned_game_pays_pot_to_claimant w who t0 t1 t2 t3 :
  0 ≤ w ≤ uint64_max →
  (String.length game_id_key + String.length gid ≤ 128)%nat →
  all_approved server
    [creation w t0;
     method creator ["deposit"%string] (Some w) t1;
     method joiner ["join"%string] (Some w) t2;
     method who ["timeout_claim"%string] None t3] ∅ = true →
  run server
    [creation w t0;
     method creator ["deposit"%string] (Some w) t1;
     method joiner ["join"%string] (Some w) t2;
     method who ["timeout_claim"%string] None t3] ∅
  = (store (game w t0 joiner who 2 t2), [payment who (2 * w - 1000)])
  ∧ joiner ≠ creator
  ∧ (who = creator ∨ who = joiner)
  ∧ t3 > t2 + 259200
  ∧ 1000 ≤ 2 * w.
Proof.
  intros Hw _ Hall.
  rewrite run_cons. rewrite all_approved_cons in Hall.
  rewrite execute_creation in * by done.
  cbn [approved committed transfers accepted andb] in *.
  rewrite run_cons. rewrite all_approved_cons in Hall.
  rewrite execute_deposit in *.
  cbn [approved committed transfers accepted andb] in *.
  rewrite run_cons. rewrite all_approved_cons in Hall.
  rewrite execute_join in *.
  destruct (bool_decide (joiner ≠ creator)) eqn:Hj; [|done].
  apply bool_decide_eq_true in Hj.
  cbn [approved committed transfers accepted andb] in *.
  rewrite run_cons. rewrite all_approved_cons in Hall.
  rewrite execute_timeout_claim in *.
  destruct (_ && pot_computable w) eqn:Hpre; [|done].
  rewrite !andb_true_iff, orb_true_iff, !bool_decide_eq_true,
    pot_computable_iff in Hpre.
  cbn [run approved committed transfers accepted andb fst snd app].
  split_and!; [|tauto..|lia]. do 3 f_equal. lia.
Qed.

(** A game nobody joined.  The calls are create, deposit and cancel,
    all by the creator, the game id fitting in the store beside its
    key.  Whenever all three are approved (which on the ledger also
    takes an escrow account able to make the payment), the record is
    left as it was created, still Waiting, exactly one payment is made,
    wager - 1000 to the creator, the cancel comes more than 3600 after
    the creation and the wager is at least 1000. *)
Theorem unjoined_game_refunds_creator w t0 t1 t2 :
  0 ≤ w ≤ uint64_max →
  (String.length game_id_key + String.length gid ≤ 128)%nat →
  all_approved server
    [creation w t0;
     method creator ["deposit"%string] (Some w) t1;
     method creator ["cancel"%string] None t2] ∅ = true →
  run server
    [creation w t0;
     method creator ["deposit"%string] (Some w) t1;
     method creator ["cancel"%string] None t2] ∅
  = (store (game w t0 zero_address zero_address 0 t0),
     [payment creator (w - 1000)])
  ∧ t2 > t0 + 3600
  ∧ 1000 ≤ w.
Proof.
  intros Hw _ Hall.
  rewrite run_cons. rewrite all_approved_cons in Hall.
  rewrite execute_creation in * by done.
  cbn [approved committed transfers accepted andb] in *.
  rewrite run_cons. rewrite all_approved_cons in Hall.
  rewrite execute_deposit in *.
  cbn [approved committed transfers accepted andb] in *.
  rewrite run_cons. rewrite all_approved_cons in Hall.
  rewrite execute_cancel in *.
  destruct (_ && bool_decide (1000 ≤ w)) eqn:Hpre; [|done].
  rewrite !andb_true_iff, !bool_decide_eq_true in Hpre.
  cbn [run approved committed transfers accepted andb fst snd app].
  split_and!; [done|tauto..].
Qed.

End Games.

(** * The operations on concrete calls *)

Import Scenario.

Lemma routes_call who op args paid now :
  routes op (call who (op :: args) paid now).
Proof. by repeat split. Qed.

Lemma join_activates_on_exact_payment_witness :
  routes "join" (join_by_bob 1000000 10)
  ∧ approved (execute SERVER (join_by_bob 1000000 10)
                (store (waiting 1000000))) = true
  ∧ committed (execute SERVER (join_by_bob 1000000 10)
                 (store (waiting 1000000))) = store (active 1000000).
Proof.
  pose proof (routes_call BOB "join" [] (Some 1000000) 10) as Hr.
  destruct (join_activates_on_exact_payment SERVER _ (waiting 1000000) Hr)
    as (Hiff & Heff & _).
  assert (approved (execute SERVER (join_by_bob 1000000 10)
                      (store (waiting 1000000))) = true) as Happ.
  { apply Hiff. split_and!; try done. by eexists. }
  split_and!; [done..|]. by destruct (Heff Happ) as (Hc & _).
Defined.

Lemma deposit_checks_caller_and_payment_only_witness :
  routes "deposit" (deposit_by_alice 1000000 50)
  ∧ approved (execute SERVER (deposit_by_alice 1000000 50)
                (store (complete 1000000))) = true
  ∧ committed (execute SERVER (deposit_by_alice 1000000 50)
                 (store (complete 1000000))) = store (complete 1000000).
Proof.
  pose proof (routes_call ALICE "deposit" [] (Some 1000000) 50) as Hr.
  destruct (deposit_checks_caller_and_payment_only SERVER _
              (complete 1000000) Hr) as (Hiff & _ & Heff).
  assert (approved (execute SERVER (deposit_by_alice 1000000 50)
                      (store (complete 1000000))) = true) as Happ.
  { apply Hiff. split; [done|]. by eexists. }
  split_and!; [done..|]. by destruct (Heff Happ) as (Hc & _).
Defined.

Lemma declare_winner_completes_active_game_witness :
  routes "declare_winner" (declare_alice 20)
  ∧ approved (execute SERVER (declare_alice 20)
                (store (active 1000000))) = true
  ∧ committed (execute SERVER (declare_alice 20)
                 (store (active 1000000))) = store (complete 1000000).
Proof.
  pose proof (routes_call SERVER "declare_winner" [ALICE] None 20) as Hr.
  destruct (declare_winner_completes_active_game SERVER _
              (active 1000000) Hr) as (Hiff & Heff).
  assert (approved (execute SERVER (declare_alice 20)
                      (store (active 1000000))) = true) as Happ.
  { apply Hiff. split_and!; [by left|done|]. exists ALICE. by split; [|left]. }
  split_and!; [done..|].
  by destruct (Heff ALICE eq_refl Happ) as (Hc & _).
Defined.

Lemma payouts_are_pot_minus_reserve_witness :
  (approved (execute SERVER (claim_by ALICE 30) (store (complete 1000000)))
   = true
   ∧ transfers (execute SERVER (claim_by ALICE 30)
                  (store (complete 1000000)))
     = [payment ALICE 1999000])
  ∧ (approved (execute SERVER (timeout_claim_by BOB 259211)
                 (store (active 500000))) = true
     ∧ transfers (execute SERVER (timeout_claim_by BOB 259211)
                    (store (active 500000)))
       = [payment BOB (2 * 500000 - 1000)])
  ∧ (approved (execute SERVER (cancel_by_alice 3601)
                 (store (waiting 500000))) = true
     ∧ transfers (execute SERVER (cancel_by_alice 3601)
                    (store (waiting 500000)))
       = [payment ALICE (500000 - 1000)]).
Proof.
  assert (approved (execute SERVER (claim_by ALICE 30)
                      (store (complete 1000000))) = true) as Hclaim
    by (vm_compute; reflexivity).
  assert (approved (execute SERVER (timeout_claim_by BOB 259211)
                      (store (active 500000))) = true) as Htimeout
    by (vm_compute; reflexivity).
  assert (approved (execute SERVER (cancel_by_alice 3601)
                      (store (waiting 500000))) = true) as Hcancel
    by (vm_compute; reflexivity).
  split; [|split]; (split; [assumption|]).
  - destruct (payouts_are_pot_minus_reserve SERVER _ _ Hclaim)
      as (_ & _ & _ & Hex).
    apply Hex; [apply routes_call|reflexivity].
  - destruct (payouts_are_pot_minus_reserve SERVER _ _ Htimeout)
      as (_ & Hto & _).
    destruct (Hto (routes_call BOB "timeout_claim" [] None 259211))
      as (Ht & _).
    exact Ht.
  - destruct (payouts_are_pot_minus_reserve SERVER _ _ Hcancel)
      as (_ & _ & Hca & _).
    destruct (Hca (routes_call ALICE "cancel" [] None 3601)) as (Ht & _).
    exact Ht.
Defined.

Lemma timeout_claim_after_abandon_timeout_witness :
  routes "timeout_claim" (timeout_claim_by BOB 259211)
  ∧ approved (execute SERVER (timeout_claim_by BOB 259211)
                (store (active 500000))) = true
  ∧ transfers (execute SERVER (timeout_claim_by BOB 259211)
                 (store (active 500000))) = [payment BOB 999000]
  ∧ approved (execute SERVER (timeout_claim_by BOB 259211)
                (committed (execute SERVER (update_move_by_server 100)
                              (store (active 500000))))) = false.
Proof.
  pose proof (routes_call BOB "timeout_claim" [] None 259211) as Hr.
  destruct (timeout_claim_after_abandon_timeout SERVER _ (active 500000) Hr)
    as (_ & Heff & Hpost).
  assert (approved (execute SERVER (timeout_claim_by BOB 259211)
                      (store (active 500000))) = true) as Happ
    by (vm_compute; reflexivity).
  split_and!; [done..| |].
  - by destruct (Heff Happ) as (_ & _ & _ & Ht).
  - apply (Hpost (update_move_by_server 100)).
    + apply routes_call.
    + vm_compute; reflexivity.
    + vm_compute. discriminate.
Defined.

Lemma created_store_reachable :
  reachable SERVER ALICE ESCROW (store (waiting 1000000)).
Proof.
  assert (committed (execute SERVER (create 1000000 0) ∅)
          = store (waiting 1000000)) as <- by (vm_compute; reflexivity).
  by apply reachable_create.
Qed.

Lemma status_only_moves_forward_witness :
  reachable SERVER ALICE ESCROW (store (waiting 1000000))
  ∧ status_of (committed (execute SERVER (join_by_bob 1000000 10)
                            (store (waiting 1000000)))) = Some (Uint 1)
  ∧ ∃ s s',
      status_of (store (waiting 1000000)) = Some (Uint s)
      ∧ status_of (committed (execute SERVER (join_by_bob 1000000 10)
                                (store (waiting 1000000)))) = Some (Uint s')
      ∧ (s = 0 ∨ s = 1 ∨ s = 2)
      ∧ (s' = s ∨ (s = 0 ∧ s' = 1) ∨ (s = 1 ∧ s' = 2)).
Proof.
  split_and!.
  - apply created_store_reachable.
  - vm_compute; reflexivity.
  - apply (status_only_moves_forward SERVER ALICE ESCROW).
    + apply created_store_reachable.
    + done.
    + vm_compute; reflexivity.
Defined.

Lemma failed_check_rejects_whole_call_witness :
  precondition SERVER "timeout_claim" (timeout_claim_by BOB 259211)
    (active 400) = false
  ∧ approved (execute SERVER (timeout_claim_by BOB 259211)
                (store (active 400))) = false
  ∧ committed (execute SERVER (timeout_claim_by BOB 259211)
                 (store (active 400))) = store (active 400)
  ∧ transfers (execute SERVER (timeout_claim_by BOB 259211)
                 (store (active 400))) = [].
Proof.
  assert (precondition SERVER "timeout_claim" (timeout_claim_by BOB 259211)
            (active 400) = false) as Hpre by (vm_compute; reflexivity).
  split; [done|].
  apply (proj2 (failed_check_rejects_whole_call SERVER _) "timeout_claim");
    [apply routes_call|done].
Defined.

Lemma claim_pays_stored_winner_and_keeps_record_witness :
  application_id (claim_by ALICE 30) ≠ 0
  ∧ approved (execute SERVER (claim_by ALICE 30) (store (complete 1000000)))
    = true
  ∧ committed (execute SERVER (claim_by ALICE 30) (store (complete 1000000)))
    = store (complete 1000000).
Proof.
  assert (application_id (claim_by ALICE 30) ≠ 0) as Hid by done.
  destruct (claim_pays_stored_winner_and_keeps_record SERVER _
              (complete 1000000) Hid) as (_ & Hfrozen & _ & Hclaim).
  destruct (Hclaim (routes_call ALICE "claim" [] None 30)) as (Hiff & _).
  split_and!; [done| |by apply Hfrozen].
  apply Hiff. by split_and!.
Defined.

Lemma cancel_refunds_player1_and_keeps_record_witness :
  routes "cancel" (cancel_by_alice 3601)
  ∧ approved (execute SERVER (cancel_by_alice 3601) (store (waiting 500000)))
    = true
  ∧ transfers (execute SERVER (cancel_by_alice 3601) (store (waiting 500000)))
    = [payment ALICE 499000]
  ∧ committed (execute SERVER (cancel_by_alice 3601) (store (waiting 500000)))
    = store (waiting 500000).
Proof.
  pose proof (routes_call ALICE "cancel" [] None 3601) as Hr.
  assert (approved (execute SERVER (cancel_by_alice 3601)
                      (store (waiting 500000))) = true) as Happ
    by (vm_compute; reflexivity).
  destruct (cancel_refunds_player1_and_keeps_record SERVER _
              (waiting 500000) Hr Happ) as (_ & _ & _ & Ht & Hc).
  by split_and!.
Defined.

Lemma create_stores_any_wager_and_calls_keep_it_witness :
  (String.length game_id_key + String.length "g1" ≤ 128)%nat
  ∧ execute SERVER (create 500000 0) ∅
    = accepted (store (waiting 500000)) []
  ∧ committed (execute SERVER (join_by_bob 500000 10)
                 (store (waiting 500000))) !! wager_key
    = Some (Uint 500000).
Proof.
  assert (String.length game_id_key + String.length "g1" ≤ 128)%nat as Hfit
    by (vm_compute; lia).
  destruct (create_stores_any_wager_and_calls_keep_it SERVER)
    as (Hcreate & Hkeep).
  split_and!; [done| |].
  - by destruct (Hcreate (create 500000 0) (itob 500000) "g1"%string 500000)
      as (Hc & _).
  - by apply (Hkeep (join_by_bob 500000 10) (waiting 500000)).
Defined.

(** * Where the program departs from the specification *)

(** ALICE creates a game with wager 1000 and deposits, BOB joins with
    his deposit, the server declares ALICE the winner and ALICE claims:
    the record is as it was before the claim, the same claim is
    approved again, and the six calls pay the pot twice (here all the
    2000 that were paid in).  The same holds for the wager 1_000_000,
    where the second claim is approved with a payment of 1_999_000. *)
Lemma second_claim_is_paid_again :
  run SERVER [create 1000 0; deposit_by_alice 1000 5; join_by_bob 1000 10;
              declare_alice 20; claim_by ALICE 30] ∅
  = (store (complete 1000), [payment ALICE 1000])
  ∧ approved (execute SERVER (claim_by ALICE 40) (store (complete 1000)))
    = true
  ∧ transfers (execute SERVER (claim_by ALICE 40) (store (complete 1000)))
    = [payment ALICE 1000]
  ∧ (run SERVER [create 1000 0; deposit_by_alice 1000 5; join_by_bob 1000 10;
                 declare_alice 20; claim_by ALICE 30; claim_by ALICE 40] ∅).2
    = [payment ALICE 1000; payment ALICE 1000]
  ∧ (run SERVER [create 1000000 0; join_by_bob 1000000 10; declare_alice 20;
                 claim_by ALICE 30; claim_by ALICE 40] ∅).2
    = [payment ALICE 1999000; payment ALICE 1999000].
Proof. split_and!; vm_compute; reflexivity. Qed.

(** ALICE creates a game with wager 500_000, deposits and cancels after
    the join timeout: she is refunded 499_000 and the record still
    waits.  BOB's join with the exact payment is then approved and
    makes the game Active; a second cancel in place of the join is
    approved too. *)
Lemma join_after_cancel_is_approved :
  run SERVER [create 500000 0; deposit_by_alice 500000 5;
              cancel_by_alice 3601] ∅
  = (store (waiting 500000), [payment ALICE 499000])
  ∧ approved (execute SERVER (join_by_bob 500000 3700)
                (store (waiting 500000))) = true
  ∧ status_of (committed (execute SERVER (join_by_bob 500000 3700)
                            (store (waiting 500000)))) = Some (Uint 1)
  ∧ approved (execute SERVER (cancel_by_alice 3800)
                (store (waiting 500000))) = true
  ∧ transfers (execute SERVER (cancel_by_alice 3800)
                 (store (waiting 500000))) = [payment ALICE 499000].
Proof. split_and!; vm_compute; reflexivity. Qed.

(** A creating call with wager 0 is approved and the record holds
    wager 0. *)
Lemma create_accepts_zero_wager :
  btoi (itob 0) = Some 0
  ∧ approved (execute SERVER (create 0 0) ∅) = true
  ∧ committed (execute SERVER (create 0 0) ∅) = store (waiting 0)
  ∧ wager (waiting 0) = 0.
Proof. split_and!; vm_compute; reflexivity. Qed.

(** * The further properties on concrete calls *)

Lemma btoi_inverts_big_endian_encoding_witness :
  0 ≤ 1000000 ≤ uint64_max ∧ btoi (itob 1000000) = Some 1000000.
Proof.
  assert (0 ≤ 1000000 ≤ uint64_max) as H by (unfold uint64_max; lia).
  split; [done|]. by apply btoi_inverts_big_endian_encoding.
Defined.

Lemma create_needs_two_arguments_and_no_payment_witness :
  application_id (create 500000 0) = 0
  ∧ on_completion (create 500000 0) ≠ ClearState
  ∧ approved (execute SERVER (create 500000 0) ∅) = true
  ∧ committed (execute SERVER (create 500000 0) ∅)
    = store (create_post (create 500000 0) 500000 "g1")
  ∧ approved (execute SERVER (with_group [] (create 500000 0)) ∅) = true.
Proof.
  assert (application_id (create 500000 0) = 0) as Hid by done.
  assert (on_completion (create 500000 0) ≠ ClearState) as Hoc by done.
  destruct (create_needs_two_arguments_and_no_payment SERVER _ Hid Hoc)
    as (Honly & Hif & _ & Hgrp).
  assert (approved (execute SERVER (create 500000 0) ∅) = true) as Happ.
  { apply (Hif (itob 500000) "g1"%string);
      [reflexivity|reflexivity|vm_compute; lia|vm_compute; lia]. }
  destruct (Honly Happ) as (a & gid & w & Ha & Hg & _ & Hw & _ & Hc & _).
  injection Ha as <-. injection Hg as <-.
  assert (w = 500000) as -> by (vm_compute in Hw; congruence).
  split; [assumption|]. split; [assumption|]. split; [assumption|].
  split; [exact Hc|]. rewrite Hgrp. exact Happ.
Defined.

Lemma delete_and_update_are_for_the_creator_witness :
  application_id (Play.bare ALICE ESCROW DeleteApplication ALICE 50) ≠ 0
  ∧ approved (execute SERVER
                (Play.bare ALICE ESCROW DeleteApplication ALICE 50)
                (store (active 1000000))) = true
  ∧ committed (execute SERVER
                 (Play.bare ALICE ESCROW DeleteApplication ALICE 50)
                 (store (active 1000000))) = store (active 1000000).
Proof.
  assert (application_id (Play.bare ALICE ESCROW DeleteApplication ALICE 50)
          ≠ 0) as Hid by done.
  destruct (delete_and_update_are_for_the_creator SERVER _
              (active 1000000) Hid (or_introl eq_refl)) as (Hiff & Hc & _).
  split_and!; [done| |done]. by apply Hiff.
Defined.

Lemma opt_in_close_out_clear_state_change_nothing_witness :
  application_id (Play.bare ALICE ESCROW OptIn BOB 50) ≠ 0
  ∧ execute SERVER (Play.bare ALICE ESCROW OptIn BOB 50)
      (store (active 1000000))
    = accepted (store (active 1000000)) [].
Proof.
  assert (application_id (Play.bare ALICE ESCROW OptIn BOB 50) ≠ 0)
    as Hid by done.
  split; [done|].
  by apply opt_in_close_out_clear_state_change_nothing; [|left].
Defined.

Lemma unknown_method_is_rejected_witness :
  application_id (call BOB ["resign"%string] None 50) ≠ 0
  ∧ execute SERVER (call BOB ["resign"%string] None 50)
      (store (active 1000000))
    = rejected (store (active 1000000)).
Proof.
  assert (application_id (call BOB ["resign"%string] None 50) ≠ 0)
    as Hid by done.
  split; [done|].
  apply unknown_method_is_rejected; [done..|].
  intros op [= <-]. vm_compute. intros H.
  repeat (apply elem_of_cons in H as [H|H]; [discriminate|]).
  by apply elem_of_nil in H.
Defined.

Lemma paired_payment_sender_is_not_checked_witness :
  application_id (join_by_bob 1000000 10) ≠ 0
  ∧ execute SERVER
      (with_group [appcall BOB; pay ALICE 1000000] (join_by_bob 1000000 10))
      (store (waiting 1000000))
    = execute SERVER (join_by_bob 1000000 10) (store (waiting 1000000))
  ∧ approved (execute SERVER
                (with_group [appcall BOB; pay ALICE 1000000]
                   (join_by_bob 1000000 10))
                (store (waiting 1000000))) = true.
Proof.
  assert (application_id (join_by_bob 1000000 10) ≠ 0) as Hid by done.
  assert (execute SERVER
            (with_group [appcall BOB; pay ALICE 1000000]
               (join_by_bob 1000000 10))
            (store (waiting 1000000))
          = execute SERVER (join_by_bob 1000000 10) (store (waiting 1000000)))
    as Heq.
  { by apply (paired_payment_sender_is_not_checked SERVER _ _ _
                (pay BOB 1000000) (pay ALICE 1000000)). }
  split_and!; [done..|]. rewrite Heq. vm_compute. reflexivity.
Defined.

Lemma active_store_reachable :
  reachable SERVER ALICE ESCROW (store (active 1000000)).
Proof.
  assert (committed (execute SERVER (join_by_bob 1000000 10)
                       (store (waiting 1000000)))
          = store (active 1000000)) as <- by (vm_compute; reflexivity).
  apply reachable_call; [apply created_store_reachable|done..|].
  vm_compute. reflexivity.
Qed.

Lemma complete_store_reachable :
  reachable SERVER ALICE ESCROW (store (complete 1000000)).
Proof.
  assert (committed (execute SERVER (declare_alice 20)
                       (store (active 1000000)))
          = store (complete 1000000)) as <- by (vm_compute; reflexivity).
  apply reachable_call; [apply active_store_reachable|done..|].
  vm_compute. reflexivity.
Qed.

Lemma reachable_records_are_well_formed_witness :
  reachable SERVER ALICE ESCROW (store (complete 1000000))
  ∧ ∃ r, store (complete 1000000) = store r ∧ record_invariant ALICE r.
Proof.
  split; [apply complete_store_reachable|].
  apply (reachable_records_are_well_formed SERVER ALICE ESCROW).
  apply complete_store_reachable.
Defined.

Lemma payments_go_to_a_player_witness :
  payment ALICE 1999000
    ∈ transfers (execute SERVER (claim_by ALICE 30) (store (complete 1000000)))
  ∧ itxn_type_enum (payment ALICE 1999000) = Payment
  ∧ itxn_fee (payment ALICE 1999000) = 0
  ∧ (itxn_receiver (payment ALICE 1999000) = player1 (complete 1000000)
     ∨ itxn_receiver (payment ALICE 1999000) = player2 (complete 1000000)).
Proof.
  assert (payment ALICE 1999000
            ∈ transfers (execute SERVER (claim_by ALICE 30)
                           (store (complete 1000000)))) as Hin.
  { assert (transfers (execute SERVER (claim_by ALICE 30)
                         (store (complete 1000000)))
            = [payment ALICE 1999000]) as -> by (vm_compute; reflexivity).
    by apply list_elem_of_singleton. }
  split; [done|].
  apply (payments_go_to_a_player SERVER ALICE ESCROW (complete 1000000)
           (claim_by ALICE 30));
    [apply complete_store_reachable|done|done].
Defined.

Lemma calls_keep_players_wager_and_game_id_witness :
  Forall (λ e, application_id e ≠ 0)
    [join_by_bob 1000000 10; declare_alice 20]
  ∧ ∃ r', (run SERVER [join_by_bob 1000000 10; declare_alice 20]
             (store (waiting 1000000))).1 = store r'
          ∧ player1 r' = ALICE ∧ wager r' = 1000000.
Proof.
  assert (Forall (λ e, application_id e ≠ 0)
            [join_by_bob 1000000 10; declare_alice 20]) as Hall
    by (repeat constructor; done).
  split; [done|].
  destruct (calls_keep_players_wager_and_game_id SERVER _
              (waiting 1000000) Hall) as (r' & Hrun & Hp & Hw & _).
  by exists r'.
Defined.

Lemma game_is_joined_at_most_once_witness :
  approved (execute SERVER (join_by_bob 1000000 10)
              (store (waiting 1000000))) = true
  ∧ approved (execute SERVER
                (call ALICE ["join"%string] (Some 1000000) 40)
                (run SERVER [update_move_by_server 30]
                   (committed (execute SERVER (join_by_bob 1000000 10)
                                 (store (waiting 1000000))))).1) = false.
Proof.
  assert (approved (execute SERVER (join_by_bob 1000000 10)
                      (store (waiting 1000000))) = true) as Happ
    by (vm_compute; reflexivity).
  split; [done|].
  apply (game_is_joined_at_most_once SERVER (join_by_bob 1000000 10)
           [update_move_by_server 30]);
    [by repeat split|done|by repeat constructor|by repeat split].
Defined.

Lemma update_move_is_for_server_or_creator_witness :
  routes "update_move" (update_move_by_server 100)
  ∧ approved (execute SERVER (update_move_by_server 100)
                (store (active 1000000))) = true
  ∧ committed (execute SERVER (update_move_by_server 100)
                 (store (active 1000000)))
    = store (update_move_post (update_move_by_server 100) (active 1000000)).
Proof.
  assert (routes "update_move" (update_move_by_server 100)) as Hr
    by (by repeat split).
  destruct (update_move_is_for_server_or_creator SERVER _
              (active 1000000) Hr) as (Hiff & Heff).
  assert (approved (execute SERVER (update_move_by_server 100)
                      (store (active 1000000))) = true) as Happ
    by (apply Hiff; split; [by left|done]).
  split_and!; [done..|]. by destruct (Heff Happ).
Defined.

Lemma cancel_needs_elapsed_timeout_and_wager_of_1000_witness :
  routes "cancel" (cancel_by_alice 3600)
  ∧ execute SERVER (cancel_by_alice 3600) (store (waiting 500000))
    = rejected (store (waiting 500000))
  ∧ approved (execute SERVER (cancel_by_alice 3601) (store (waiting 500000)))
    = true
  ∧ latest_timestamp (cancel_by_alice 3601)
    > created_at (waiting 500000) + 3600
  ∧ 1000 ≤ wager (waiting 500000)
  ∧ execute SERVER (cancel_by_alice 3601) (store (waiting 999))
    = rejected (store (waiting 999)).
Proof.
  assert (∀ now, routes "cancel" (cancel_by_alice now)) as Hr
    by (by repeat split).
  destruct (cancel_needs_elapsed_timeout_and_wager_of_1000 SERVER _
              (waiting 500000) (Hr 3600)) as (_ & Hearly & _).
  destruct (cancel_needs_elapsed_timeout_and_wager_of_1000 SERVER _
              (waiting 500000) (Hr 3601)) as (Honly & _ & _).
  destruct (cancel_needs_elapsed_timeout_and_wager_of_1000 SERVER _
              (waiting 999) (Hr 3601)) as (_ & _ & Hdust).
  assert (approved (execute SERVER (cancel_by_alice 3601)
                      (store (waiting 500000))) = true) as Happ
    by (vm_compute; reflexivity).
  destruct (Honly Happ) as (_ & _ & _ & Hnow & Hw).
  split; [exact (Hr 3600)|]. split; [|split; [exact Happ|]].
  - apply Hearly. simpl. lia.
  - split; [exact Hnow|]. split; [exact Hw|].
    apply Hdust. simpl. lia.
Defined.

Lemma timeout_claim_needs_elapsed_timeout_and_payable_pot_witness :
  routes "timeout_claim" (timeout_claim_by BOB 259210)
  ∧ execute SERVER (timeout_claim_by BOB 259210) (store (active 500000))
    = rejected (store (active 500000))
  ∧ approved (execute SERVER (timeout_claim_by BOB 259211)
                (store (active 500000))) = true
  ∧ latest_timestamp (timeout_claim_by BOB 259211)
    > last_move (active 500000) + 259200
  ∧ 1000 ≤ 2 * wager (active 500000) ≤ uint64_max
  ∧ execute SERVER (timeout_claim_by BOB 259211) (store (active 499))
    = rejected (store (active 499)).
Proof.
  assert (∀ now, routes "timeout_claim" (timeout_claim_by BOB now)) as Hr
    by (by repeat split).
  destruct (timeout_claim_needs_elapsed_timeout_and_payable_pot SERVER _
              (active 500000) (Hr 259210)) as (_ & Hearly & _).
  destruct (timeout_claim_needs_elapsed_timeout_and_payable_pot SERVER _
              (active 500000) (Hr 259211)) as (Honly & _ & _).
  destruct (timeout_claim_needs_elapsed_timeout_and_payable_pot SERVER _
              (active 499) (Hr 259211)) as (_ & _ & Hdust).
  assert (approved (execute SERVER (timeout_claim_by BOB 259211)
                      (store (active 500000))) = true) as Happ
    by (vm_compute; reflexivity).
  destruct (Honly Happ) as (_ & _ & _ & Hnow & Hpot).
  split; [exact (Hr 259210)|]. split; [|split; [exact Happ|]].
  - apply Hearly. simpl. lia.
  - split; [exact Hnow|]. split; [exact Hpot|].
    apply Hdust. simpl. lia.
Defined.

Lemma wager_below_500_is_never_paid_out_witness :
  2 * wager (waiting 499) < 1000
  ∧ (run SERVER [deposit_by_alice 499 5; join_by_bob 499 10; declare_alice 20;
                 claim_by ALICE 30; timeout_claim_by BOB 300000]
       (store (waiting 499))).2 = [].
Proof.
  assert (2 * wager (waiting 499) < 1000) as Hw by (simpl; lia).
  split; [done|].
  apply wager_below_500_is_never_paid_out; [|done].
  repeat constructor; done.
Defined.

Lemma creator_can_declare_itself_winner_witness :
  reachable SERVER ALICE ESCROW (store (active 1000000))
  ∧ execute SERVER (call ALICE ["declare_winner"%string; ALICE] None 20)
      (store (active 1000000))
    = accepted (store (declare_winner_post ALICE (active 1000000))) [].
Proof.
  split; [apply active_store_reachable|].
  by apply (creator_can_declare_itself_winner SERVER ALICE ESCROW
              (active 1000000)
              (call ALICE ["declare_winner"%string; ALICE] None 20));
    [apply active_store_reachable|..].
Defined.

Lemma outsider_can_only_join_witness :
  reachable SERVER ALICE ESCROW (store (complete 1000000))
  ∧ committed (execute SERVER
                 (claim_by "CCCCCCCCCCCCCCCCCCCCCCCCCCCCCCCC" 30)
                 (store (complete 1000000))) = store (complete 1000000)
  ∧ transfers (execute SERVER
                 (claim_by "CCCCCCCCCCCCCCCCCCCCCCCCCCCCCCCC" 30)
                 (store (complete 1000000))) = [].
Proof.
  split; [apply complete_store_reachable|].
  destruct (outsider_can_only_join SERVER ALICE ESCROW (complete 1000000)
              (claim_by "CCCCCCCCCCCCCCCCCCCCCCCCCCCCCCCC" 30))
    as [(_ & _ & Hop)|Hsame]; try done.
  apply complete_store_reachable.
Defined.

Lemma method_call_on_empty_store_is_rejected_witness :
  application_id (join_by_bob 1000000 10) ≠ 0
  ∧ execute SERVER (join_by_bob 1000000 10) ∅ = rejected ∅.
Proof.
  split; [done|]. by apply method_call_on_empty_store_is_rejected.
Defined.

Lemma played_game_pays_pot_to_declared_winner_witness :
  0 ≤ 1000000 ≤ uint64_max
  ∧ (String.length game_id_key + String.length "g1" ≤ 128)%nat
  ∧ all_approved SERVER
      [Play.creation ALICE ESCROW "g1" 1000000 0;
       Play.method ALICE ESCROW ALICE ["deposit"%string] (Some 1000000) 5;
       Play.method ALICE ESCROW BOB ["join"%string] (Some 1000000) 10;
       Play.method ALICE ESCROW SERVER ["declare_winner"%string; BOB] None 20;
       Play.method ALICE ESCROW BOB ["claim"%string] None 30] ∅ = true
  ∧ run SERVER
      [Play.creation ALICE ESCROW "g1" 1000000 0;
       Play.method ALICE ESCROW ALICE ["deposit"%string] (Some 1000000) 5;
       Play.method ALICE ESCROW BOB ["join"%string] (Some 1000000) 10;
       Play.method ALICE ESCROW SERVER ["declare_winner"%string; BOB] None 20;
       Play.method ALICE ESCROW BOB ["claim"%string] None 30] ∅
    = (store (Play.game ALICE "g1" 1000000 0 BOB BOB 2 10),
       [payment BOB (2 * 1000000 - 1000)]).
Proof.
  assert (0 ≤ 1000000 ≤ uint64_max) as Hw by (unfold uint64_max; lia).
  assert (String.length game_id_key + String.length "g1" ≤ 128)%nat
    as Hfit by (vm_compute; lia).
  assert (all_approved SERVER
      [Play.creation ALICE ESCROW "g1" 1000000 0;
       Play.method ALICE ESCROW ALICE ["deposit"%string] (Some 1000000) 5;
       Play.method ALICE ESCROW BOB ["join"%string] (Some 1000000) 10;
       Play.method ALICE ESCROW SERVER ["declare_winner"%string; BOB] None 20;
       Play.method ALICE ESCROW BOB ["claim"%string] None 30] ∅ = true)
    as Hall by (vm_compute; reflexivity).
  destruct (played_game_pays_pot_to_declared_winner
              SERVER ALICE BOB ESCROW "g1" 1000000 BOB 0 5 10 20 30
              Hw Hfit Hall) as (Hrun & _).
  split; [exact Hw|]. split; [exact Hfit|]. split; [exact Hall|exact Hrun].
Defined.

Lemma abandoned_game_pays_pot_to_claimant_witness :
  0 ≤ 500000 ≤ uint64_max
  ∧ (String.length game_id_key + String.length "g1" ≤ 128)%nat
  ∧ all_approved SERVER
      [Play.creation ALICE ESCROW "g1" 500000 0;
       Play.method ALICE ESCROW ALICE ["deposit"%string] (Some 500000) 0;
       Play.method ALICE ESCROW BOB ["join"%string] (Some 500000) 0;
       Play.method ALICE ESCROW BOB ["timeout_claim"%string] None 259201] ∅
    = true
  ∧ run SERVER
      [Play.creation ALICE ESCROW "g1" 500000 0;
       Play.method ALICE ESCROW ALICE ["deposit"%string] (Some 500000) 0;
       Play.method ALICE ESCROW BOB ["join"%string] (Some 500000) 0;
       Play.method ALICE ESCROW BOB ["timeout_claim"%string] None 259201] ∅
    = (store (Play.game ALICE "g1" 500000 0 BOB BOB 2 0),
       [payment BOB (2 * 500000 - 1000)]).
Proof.
  assert (0 ≤ 500000 ≤ uint64_max) as Hw by (unfold uint64_max; lia).
  assert (String.length game_id_key + String.length "g1" ≤ 128)%nat
    as Hfit by (vm_compute; lia).
  assert (all_approved SERVER
      [Play.creation ALICE ESCROW "g1" 500000 0;
       Play.method ALICE ESCROW ALICE ["deposit"%string] (Some 500000) 0;
       Play.method ALICE ESCROW BOB ["join"%string] (Some 500000) 0;
       Play.method ALICE ESCROW BOB ["timeout_claim"%string] None 259201] ∅
    = true) as Hall by (vm_compute; reflexivity).
  destruct (abandoned_game_pays_pot_to_claimant
              SERVER ALICE BOB ESCROW "g1" 500000 BOB 0 0 0 259201
              Hw Hfit Hall) as (Hrun & _).
  split; [exact Hw|]. split; [exact Hfit|]. split; [exact Hall|exact Hrun].
Defined.

Lemma unjoined_game_refunds_creator_witness :
  0 ≤ 500000 ≤ uint64_max
  ∧ (String.length game_id_key + String.length "g1" ≤ 128)%nat
  ∧ all_approved SERVER
      [Play.creation ALICE ESCROW "g1" 500000 0;
       Play.method ALICE ESCROW ALICE ["deposit"%string] (Some 500000) 5;
       Play.method ALICE ESCROW ALICE ["cancel"%string] None 3601] ∅ = true
  ∧ run SERVER
      [Play.creation ALICE ESCROW "g1" 500000 0;
       Play.method ALICE ESCROW ALICE ["deposit"%string] (Some 500000) 5;
       Play.method ALICE ESCROW ALICE ["cancel"%string] None 3601] ∅
    = (store (Play.game ALICE "g1" 500000 0 zero_address zero_address 0 0),
       [payment ALICE (500000 - 1000)]).
Proof.
  assert (0 ≤ 500000 ≤ uint64_max) as Hw by (unfold uint64_max; lia).
  assert (String.length game_id_key + String.length "g1" ≤ 128)%nat
    as Hfit by (vm_compute; lia).
  assert (all_approved SERVER
      [Play.creation ALICE ESCROW "g1" 500000 0;
       Play.method ALICE ESCROW ALICE ["deposit"%string] (Some 500000) 5;
       Play.method ALICE ESCROW ALICE ["cancel"%string] None 3601] ∅ = true)
    as Hall by (vm_compute; reflexivity).
  destruct (unjoined_game_refunds_creator
              SERVER ALICE ESCROW "g1" 500000 0 5 3601
              Hw Hfit Hall) as (Hrun & _).
  split; [exact Hw|]. split; [exact Hfit|]. split; [exact Hall|exact Hrun].
Defined.
